(** * update_stream_service.py: a shallow embedding

    The Python module [vtdb/update_stream_service.py] has three classes:
    [Coord] (a log position), [EventData] (the decoder of one streamed
    reply) and [UpdateStreamConnection] (the client of the
    [UpdateStream.ServeUpdateStream] streaming call).

    Python objects live in a heap: dictionaries and lists are mutable and
    shared by reference, so the model keeps a store of objects indexed by
    locations, and values are either immediate (None, bool, int, str,
    tuple) or references into the store.  The code runs in a small state
    and exception monad over that store, together with the diagnostic log
    written by [logging.exception] and the requests handed to the
    transport. *)

From stdpp Require Import base gmap list strings fin_maps.
From Stdlib Require Import ZArith String.

Open Scope string_scope.
Open Scope list_scope.
Set Warnings "-register-all".

(** ** Python values and objects *)

Definition loc := positive.

Inductive val :=
  | VNone
  | VBool (b : bool)
  | VInt (z : Z)
  | VStr (s : string)
  | VTuple (vs : list val)
  | VRef (l : loc).

Inductive obj :=
  | ODict (d : gmap string val)
  | OList (vs : list val)
  | OCoord (GroupId ServerId : val).   (* an instance of class Coord *)

(** Exceptions that can reach the caller.  [AppError] and [GoRpcError]
    are the classes of [net.gorpc]; [DatabaseError] and
    [OperationalError] those of [vtdb.dbexceptions]. *)
Inductive exc :=
  | AppError (args : list val)
  | GoRpcError (args : list val)
  | DatabaseError (args : list val)
  | OperationalError (args : list val)
  | KeyError (key : string)
  | TypeError
  | AttributeError (name : string)
  | OtherError (name : string) (args : list val).

(** Modelled from the spec: the class hierarchy of [net.gorpc] (not part
    of this module).  The spec describes the error narrowing as catching
    specific error types "in priority order": the application error is a
    kind of RPC error, i.e. [AppError] derives from [GoRpcError]. *)
Definition is_GoRpcError (e : exc) : bool :=
  match e with AppError _ | GoRpcError _ => true | _ => false end.

Definition is_AppError (e : exc) : bool :=
  match e with AppError _ => true | _ => false end.

Definition exc_args (e : exc) : list val :=
  match e with
  | AppError a | GoRpcError a | DatabaseError a | OperationalError a
  | OtherError _ a => a
  | KeyError k => [VStr k]
  | TypeError => []
  | AttributeError n => [VStr n]
  end.

(** ** Program state and the monad *)

Record St := mkSt {
  heap : gmap loc obj;
  log : list exc;                  (* records of logging.exception *)
  sent : list (string * val)       (* (method, argument) given to stream_call *)
}.

Definition M (A : Type) : Type := St -> St * (exc + A).

Definition retM {A} (x : A) : M A := fun st => (st, inr x).
Definition raise {A} (e : exc) : M A := fun st => (st, inl e).
Definition bindM {A B} (m : M A) (k : A -> M B) : M B :=
  fun st => match m st with
            | (st', inl e) => (st', inl e)
            | (st', inr x) => k x st'
            end.
(** [try: m except: handler] *)
Definition catch {A} (m : M A) (handler : exc -> M A) : M A :=
  fun st => match m st with
            | (st', inl e) => handler e st'
            | (st', inr x) => (st', inr x)
            end.

Declare Scope py_scope.
Delimit Scope py_scope with py.
Notation "x <- m ;; k" := (bindM m (fun x => k))
  (at level 100, m at next level, right associativity) : py_scope.
Notation "m ;;; k" := (bindM m (fun _ => k))
  (at level 100, right associativity) : py_scope.
Open Scope py_scope.

(** [for x in xs: body] *)
Fixpoint mfor {A} (xs : list A) (body : A -> M unit) : M unit :=
  match xs with
  | [] => retM tt
  | x :: xs' => body x ;;; mfor xs' body
  end.

(** ** Primitive operations on the store *)

Definition set_heap (h : gmap loc obj) (st : St) : St :=
  mkSt h (log st) (sent st).

Definition alloc (o : obj) : M loc :=
  fun st => let l := fresh (dom (heap st)) in
            (set_heap (<[l := o]> (heap st)) st, inr l).

Definition deref (l : loc) : M obj :=
  fun st => match heap st !! l with
            | Some o => (st, inr o)
            | None => (st, inl (AttributeError "__dict__"))
            end.

(** [d[k]] on a dict *)
Definition getitem (l : loc) (k : string) : M val :=
  o <- deref l ;;
  match o with
  | ODict d => match d !! k with
               | Some v => retM v
               | None => raise (KeyError k)
               end
  | _ => raise TypeError
  end.

(** [d[k] = v] on a dict *)
Definition setitem (l : loc) (k : string) (v : val) : M unit :=
  o <- deref l ;;
  match o with
  | ODict d => fun st => (set_heap (<[l := ODict (<[k := v]> d)]> (heap st)) st, inr tt)
  | _ => raise TypeError
  end.

(** [del d[k]] on a dict *)
Definition delitem (l : loc) (k : string) : M unit :=
  o <- deref l ;;
  match o with
  | ODict d => match d !! k with
               | Some _ => fun st =>
                   (set_heap (<[l := ODict (delete k d)]> (heap st)) st, inr tt)
               | None => raise (KeyError k)
               end
  | _ => raise TypeError
  end.

(** [xs.append(v)] on a list *)
Definition list_append (l : loc) (v : val) : M unit :=
  o <- deref l ;;
  match o with
  | OList vs => fun st => (set_heap (<[l := OList (vs ++ [v])]> (heap st)) st, inr tt)
  | _ => raise (AttributeError "append")
  end.

(** Python truth value ([not v] is its negation). *)
Definition truthy (h : gmap loc obj) (v : val) : bool :=
  match v with
  | VNone => false
  | VBool b => b
  | VInt z => negb (Z.eqb z 0)
  | VStr s => match s with EmptyString => false | _ => true end
  | VTuple vs => match vs with [] => false | _ => true end
  | VRef l => match h !! l with
              | Some (ODict d) => match map_to_list d with [] => false | _ => true end
              | Some (OList vs) => match vs with [] => false | _ => true end
              | Some (OCoord _ _) => true
              | None => true
              end
  end.

Fixpoint str_chars (s : string) : list val :=
  match s with
  | EmptyString => []
  | String c s' => VStr (String c EmptyString) :: str_chars s'
  end.

(** The items an iteration over [v] visits, [None] when [iter(v)] raises
    [TypeError]. *)
Definition py_iter (h : gmap loc obj) (v : val) : option (list val) :=
  match v with
  | VStr s => Some (str_chars s)
  | VTuple vs => Some vs
  | VRef l => match h !! l with
              | Some (ODict d) => Some (map (fun kv => VStr kv.1) (map_to_list d))
              | Some (OList vs) => Some vs
              | _ => None
              end
  | _ => None
  end.

Definition is_true (v : val) : M bool := fun st => (st, inr (truthy (heap st) v)).

Definition iter (v : val) : M (list val) :=
  fun st => match py_iter (heap st) v with
            | Some xs => (st, inr xs)
            | None => (st, inl TypeError)
            end.

(** [izip(xs, ys)]: pairs up to the shorter of the two. *)
Fixpoint izip (xs ys : list val) : list (val * val) :=
  match xs, ys with
  | x :: xs', y :: ys' => (x, y) :: izip xs' ys'
  | _, _ => []
  end.

Definition log_exception (e : exc) : M unit :=
  fun st => (mkSt (heap st) (log st ++ [e]) (sent st), inr tt).

(** ** class EventData *)

(** The body of the loop [for pkList in raw_response['PkValues']]. *)
Definition pk_step (raw_response rows : loc) (pkList : val) : M unit :=
  t <- is_true pkList ;;
  if negb t then retM tt else
  cols <- getitem raw_response "PkColNames" ;;
  cs <- iter cols ;;
  ps <- iter pkList ;;
  pk_row <- alloc (OList (map (fun cv => VTuple [cv.1; cv.2]) (izip cs ps))) ;;
  list_append rows (VRef pk_row).

(** [EventData(raw_response).__dict__]: the location of the new
    instance's attribute dictionary. *)
Definition EventData (raw_response : loc) : M loc :=
  o <- deref raw_response ;;
  match o with
  | ODict d =>
      self <- alloc (ODict ∅) ;;
      mfor (map_to_list d) (fun kv => setitem self kv.1 kv.2) ;;;
      rows <- alloc (OList []) ;;
      setitem self "PkRows" (VRef rows) ;;;
      delitem self "PkColNames" ;;;
      delitem self "PkValues" ;;;
      cols <- getitem raw_response "PkColNames" ;;
      t <- is_true cols ;;
      if negb t then retM self else
      pvs0 <- getitem raw_response "PkValues" ;;
      pvs <- iter pvs0 ;;
      mfor pvs (pk_step raw_response rows) ;;;
      retM self
  | _ => raise (AttributeError "iteritems")
  end.

(** ** class Coord *)

(** [Coord(group_id, server_id=None)] *)
Definition Coord (group_id : val) (server_id : val) : M loc :=
  alloc (OCoord group_id server_id).

(** ** class UpdateStreamConnection *)

(** What one [self.client.stream_next()] of the BSON-RPC transport gives:
    it raises, it reports the end of the stream ([None]), or it returns a
    response whose [.reply] is the location of the reply dictionary. *)
Inductive pull :=
  | PullRaise (e : exc)
  | PullEnd
  | PullReply (reply : loc).

(** [self.client.stream_call(method, args)]: the request goes to the
    transport; [call_err] is the exception the transport raises, if any. *)
Definition client_stream_call (call_err : option exc) (method : string) (args : val)
  : M unit :=
  fun st =>
    let st' := mkSt (heap st) (log st) (sent st ++ [(method, args)]) in
    match call_err with
    | Some e => (st', inl e)
    | None => (st', inr tt)
    end.

(** [self.client.stream_next()], returning [response.reply] *)
Definition client_stream_next (p : pull) : M (option loc) :=
  match p with
  | PullRaise e => raise e
  | PullEnd => retM None
  | PullReply reply => retM (Some reply)
  end.

(** [response = self.client.stream_next()
     if response is None: return None
     return EventData(response.reply).__dict__]
    (the body shared by [stream_start] and [stream_next]) *)
Definition stream_read (p : pull) : M (option loc) :=
  response <- client_stream_next p ;;
  match response with
  | None => retM None
  | Some reply => d <- EventData reply ;; retM (Some d)
  end.

(** The [except] clauses of [stream_start]:
    [except gorpc.GoRpcError as e: raise dbexceptions.OperationalError( *e.args)
     except: logging.exception('gorpc low-level error'); raise] *)
Definition stream_start_except (e : exc) : M (option loc) :=
  if is_GoRpcError e then raise (OperationalError (exc_args e))
  else (log_exception e ;;; raise e).

Definition stream_start (call_err : option exc) (p : pull) (start_position : val)
  : M (option loc) :=
  catch
    (req <- alloc (ODict {["GroupId" := start_position]}) ;;
     client_stream_call call_err "UpdateStream.ServeUpdateStream" (VRef req) ;;;
     stream_read p)
    stream_start_except.

(** The [except] clauses of [stream_next]:
    [except gorpc.AppError as e: raise dbexceptions.DatabaseError( *e.args)
     except gorpc.GoRpcError as e: raise dbexceptions.OperationalError( *e.args)
     except: logging.exception('gorpc low-level error'); raise] *)
Definition stream_next_except (e : exc) : M (option loc) :=
  if is_AppError e then raise (DatabaseError (exc_args e))
  else if is_GoRpcError e then raise (OperationalError (exc_args e))
  else (log_exception e ;;; raise e).

Definition stream_next (p : pull) : M (option loc) :=
  catch (stream_read p) stream_next_except.

(** ** Reading results back from the store *)

(** The row tuples [(col_name, col_value)] the list comprehension builds
    for one [pkList]. *)
Definition pair_row (cs ps : list val) : list val :=
  map (fun cv => VTuple [cv.1; cv.2]) (izip cs ps).

(** The attribute dictionary of a decoded event: the reply's fields, with
    [PkRows] set to the list at [rows] and the two consumed keys gone. *)
Definition result_dict (d : gmap string val) (rows : loc) : gmap string val :=
  delete "PkValues" (delete "PkColNames" (<["PkRows" := VRef rows]> d)).

(** The contents of a list of lists stored at [l]. *)
Definition rows_of (h : gmap loc obj) (l : loc) : option (list (list val)) :=
  match h !! l with
  | Some (OList vs) =>
      mapM (fun v => match v with
                     | VRef l' => match h !! l' with
                                  | Some (OList xs) => Some xs
                                  | _ => None
                                  end
                     | _ => None
                     end) vs
  | _ => None
  end.

(** [PkRows] of a decoded event, when [ev] is the event's dictionary. *)
Definition pk_rows_of (h : gmap loc obj) (ev : loc) : option (list (list val)) :=
  match h !! ev with
  | Some (ODict d) => match d !! "PkRows" with
                      | Some (VRef l) => rows_of h l
                      | _ => None
                      end
  | _ => None
  end.

(** What the [for pkList in ...] loop appends, evaluated against the
    store [h] at the start of decoding. *)
Fixpoint spec_loop (h : gmap loc obj) (cols : val) (pvs : list val)
  : exc + list (list val) :=
  match pvs with
  | [] => inr []
  | pkList :: pvs' =>
      if truthy h pkList then
        match py_iter h cols, py_iter h pkList with
        | Some cs, Some ps =>
            match spec_loop h cols pvs' with
            | inl e => inl e
            | inr R => inr (pair_row cs ps :: R)
            end
        | _, _ => inl TypeError
        end
      else spec_loop h cols pvs'
  end.

(** The outcome of [EventData] on a reply dictionary [d]: the exception
    it raises, or the rows [PkRows] ends up holding. *)
Definition decode_spec (h : gmap loc obj) (d : gmap string val)
  : exc + list (list val) :=
  match d !! "PkColNames", d !! "PkValues" with
  | None, _ => inl (KeyError "PkColNames")
  | Some _, None => inl (KeyError "PkValues")
  | Some cols, Some pv =>
      if truthy h cols then
        match py_iter h pv with
        | Some pvs => spec_loop h cols pvs
        | None => inl TypeError
        end
      else inr []
  end.

(** A reference held directly by [v] points to an object of [h]. *)
Definition top_ok (h : gmap loc obj) (v : val) : Prop :=
  match v with VRef l => is_Some (h !! l) | _ => True end.

(** The references the decoder follows out of a reply [d] are not
    dangling: [PkColNames], [PkValues] and the items of [PkValues]. *)
Definition ready (h : gmap loc obj) (d : gmap string val) : Prop :=
  (forall cols, d !! "PkColNames" = Some cols -> top_ok h cols) /\
  (forall pv, d !! "PkValues" = Some pv ->
     top_ok h pv /\ forall pvs, py_iter h pv = Some pvs -> Forall (top_ok h) pvs).

(** Objects other than [lp] that exist in [h] are unchanged in [h']. *)
Definition keeps (lp : loc) (h h' : gmap loc obj) : Prop :=
  forall l o, l <> lp -> h !! l = Some o -> h' !! l = Some o.

(** [rows] holds a list of references to distinct list objects, with the
    contents [R]. *)
Definition rows_inv (h : gmap loc obj) (rows : loc) (R : list (list val)) : Prop :=
  exists ls, h !! rows = Some (OList (map VRef ls)) /\
             Forall2 (fun l r => l <> rows /\ h !! l = Some (OList r)) ls R.

(** What one iteration adds to [PkRows], against the initial store. *)
Definition step_spec (h : gmap loc obj) (cols pkList : val) : exc + list (list val) :=
  if truthy h pkList then
    match py_iter h cols, py_iter h pkList with
    | Some cs, Some ps => inr [pair_row cs ps]
    | _, _ => inl TypeError
    end
  else inr [].

(** References held by a value, an object. *)
Fixpoint val_refs (v : val) : list loc :=
  match v with
  | VRef l => [l]
  | VTuple vs => (fix go (vs : list val) : list loc :=
                    match vs with [] => [] | v :: vs' => val_refs v ++ go vs' end) vs
  | _ => []
  end.

Definition obj_refs (o : obj) : list loc :=
  match o with
  | ODict d => List.concat (map (fun kv => val_refs kv.2) (map_to_list d))
  | OList vs => List.concat (map val_refs vs)
  | OCoord g s => val_refs g ++ val_refs s
  end.

(** A Python store has no dangling references. *)
Definition closed_heap (h : gmap loc obj) : bool :=
  forallb (fun lo => forallb (fun l => bool_decide (is_Some (h !! l))) (obj_refs lo.2))
          (map_to_list h).

(** Deep contents of a value, down to [n] levels: what Python's [==]
    compares. *)
Inductive dval :=
  | DNone
  | DBool (b : bool)
  | DInt (z : Z)
  | DStr (s : string)
  | DTuple (vs : list dval)
  | DList (vs : list dval)
  | DDict (kvs : list (string * dval))
  | DCoord (GroupId ServerId : dval)
  | DDangling
  | DCut.

Fixpoint deep (n : nat) (h : gmap loc obj) (v : val) : dval :=
  match n with
  | O => DCut
  | S n' =>
      match v with
      | VNone => DNone
      | VBool b => DBool b
      | VInt z => DInt z
      | VStr s => DStr s
      | VTuple vs => DTuple (map (deep n' h) vs)
      | VRef l =>
          match h !! l with
          | Some (ODict d) => DDict (map_to_list (deep n' h <$> d))
          | Some (OList vs) => DList (map (deep n' h) vs)
          | Some (OCoord g s) => DCoord (deep n' h g) (deep n' h s)
          | None => DDangling
          end
      end
  end.

(** ** Sample stores *)

(** A DML event on a table whose primary key is [(id, name)], with an
    empty middle entry in [PkValues]: the reply dictionary sits at
    location 1. *)
Definition sample_reply : gmap string val :=
  <["Category" := VStr "DML"]>
  (<["PkColNames" := VRef 2%positive]>
  (<["PkValues" := VRef 3%positive]> ∅)).

Definition sample_heap : gmap loc obj :=
  <[1%positive := ODict sample_reply]>
  (<[2%positive := OList [VStr "id"; VStr "name"]]>
  (<[3%positive := OList [VRef 4%positive; VRef 5%positive; VRef 6%positive]]>
  (<[4%positive := OList [VInt 1; VStr "a"]]>
  (<[5%positive := OList []]>
  (<[6%positive := OList [VInt 2; VStr "b"]]> ∅))))).

Definition sample_state : St := mkSt sample_heap [] [].

(** A reply with neither [PkColNames] nor [PkValues]. *)
Definition no_pk_state : St :=
  mkSt {[1%positive := ODict {["Category" := VStr "DDL"]}]} [] [].

(** A reply whose [PkColNames] is the empty list while [PkValues] has an
    entry. *)
Definition empty_cols_reply : gmap string val :=
  <["Category" := VStr "DML"]>
  (<["PkColNames" := VRef 2%positive]>
  (<["PkValues" := VRef 3%positive]> ∅)).

Definition empty_cols_state : St :=
  mkSt (<[1%positive := ODict empty_cols_reply]>
        (<[2%positive := OList []]>
        (<[3%positive := OList [VRef 4%positive]]>
        (<[4%positive := OList [VInt 7]]> ∅)))) [] [].

(** A store holding the position [Coord('g1', 's1')] at location 1. *)
Definition coord_state : St :=
  mkSt {[1%positive := OCoord (VStr "g1") (VStr "s1")]} [] [].


(** A reply whose second [PkValues] entry is a number, not a list. *)
Definition bad_entry_reply : gmap string val :=
  <["PkColNames" := VRef 2%positive]> (<["PkValues" := VRef 3%positive]> ∅).

Definition bad_entry_state : St :=
  mkSt (<[1%positive := ODict bad_entry_reply]>
        (<[2%positive := OList [VStr "id"]]>
        (<[3%positive := OList [VRef 4%positive; VInt 5]]>
        (<[4%positive := OList [VInt 1]]> ∅)))) [] [].

(** ** The exceptions decoding can raise *)

(** [KeyError] from a missing key, [TypeError] from iterating over a
    non-iterable, [AttributeError] from a reply that is not a dict. *)
Definition decode_error (e : exc) : bool :=
  match e with KeyError _ | TypeError | AttributeError _ => true | _ => false end.

(** Every exception [m] raises is one of those. *)
Definition only_decode_errors {A} (m : M A) : Prop :=
  forall st, match (m st).2 with inl e => decode_error e = true | inr _ => True end.

(** ** What the connection's operations leave behind *)

(** The outcome [r] of an operation started in [st]: an exception it
    raises is never a [GoRpcError] (nor an [AppError]), and the log gains
    at most one record, the exception raised; a returned value logs
    nothing. *)
Definition stream_outcome (st : St) (r : St * (exc + option loc)) : Prop :=
  match r.2 with
  | inl e => is_GoRpcError e = false /\ (log r.1 = log st \/ log r.1 = log st ++ [e])
  | inr _ => log r.1 = log st
  end.

(** An [except] chain: it raises, without logging, an exception that is
    not a [GoRpcError], or it logs [e] and re-raises it when [e] is not a
    [GoRpcError] itself. *)
Definition handler_spec (handler : exc -> M (option loc)) : Prop :=
  forall e st',
    (exists e', is_GoRpcError e' = false /\ handler e st' = (st', inl e')) \/
    (is_GoRpcError e = false /\
     handler e st' = (mkSt (heap st') (log st' ++ [e]) (sent st'), inl e)).

(** What one [PkValues] entry [x] adds to [PkRows]: nothing when it is
    false as a Python value, at most one row otherwise. *)
Definition contributes (h : gmap loc obj) (x : val) (c : list (list val)) : Prop :=
  (truthy h x = false -> c = []) /\ List.length c <= 1.

(** * Lemmas about the model *)

Lemma mfor_cons {A} (x : A) (xs : list A) (body : A -> M unit) (st : St) :
  mfor (x :: xs) body st =
  match body x st with
  | (st', inl e) => (st', inl e)
  | (st', inr _) => mfor xs body st'
  end.
Proof. reflexivity. Qed.

Lemma set_heap_id (st : St) : set_heap (heap st) st = st.
Proof. by destruct st. Qed.

(** The [iteritems] loop copies the reply into the instance dictionary. *)
Lemma copy_loop (s : loc) (l : list (string * val)) :
  forall (st : St) (m : gmap string val), heap st !! s = Some (ODict m) ->
  mfor l (fun kv => setitem s kv.1 kv.2) st =
  (set_heap (<[s := ODict (fold_left (fun m kv => <[kv.1 := kv.2]> m) l m)]> (heap st)) st,
   inr tt).
Proof.
  induction l as [|[k v] l IH]; intros st m Hs.
  - simpl. rewrite insert_id by done. by rewrite set_heap_id.
  - rewrite mfor_cons. unfold setitem, bindM, deref. rewrite Hs. simpl.
    rewrite (IH _ (<[k:=v]> m)) by (simpl; apply lookup_insert_eq).
    simpl. by rewrite insert_insert_eq.
Qed.

Lemma fold_copy (l : list (string * val)) (m : gmap string val) :
  NoDup l.*1 -> fold_left (fun m kv => <[kv.1 := kv.2]> m) l m = list_to_map l ∪ m.
Proof.
  revert m. induction l as [|[k v] l IH]; intros m Hnd; simpl.
  - by rewrite (left_id_L ∅ _).
  - inversion Hnd as [|?? Hk Hnd']; subst. rewrite IH by done.
    rewrite <- insert_union_r by (by apply not_elem_of_list_to_map_1).
    by rewrite insert_union_l.
Qed.

Lemma copy_all (d : gmap string val) :
  fold_left (fun m kv => <[kv.1 := kv.2]> m) (map_to_list d) ∅ = d.
Proof.
  rewrite fold_copy by apply NoDup_fst_map_to_list.
  by rewrite (right_id_L ∅ _), list_to_map_to_list.
Qed.

Lemma truthy_mono (h h' : gmap loc obj) (v : val) :
  h ⊆ h' -> top_ok h v -> truthy h' v = truthy h v.
Proof.
  intros Hsub Hok. destruct v; simpl; try done.
  destruct Hok as [o Ho]. by rewrite Ho, (lookup_weaken h h' l o).
Qed.

Lemma py_iter_mono (h h' : gmap loc obj) (v : val) :
  h ⊆ h' -> top_ok h v -> py_iter h' v = py_iter h v.
Proof.
  intros Hsub Hok. destruct v; simpl; try done.
  destruct Hok as [o Ho]. by rewrite Ho, (lookup_weaken h h' l o).
Qed.

Lemma keeps_refl (lp : loc) (h : gmap loc obj) : keeps lp h h.
Proof. by intros l o _ H. Qed.

Lemma keeps_trans (lp : loc) (h1 h2 h3 : gmap loc obj) :
  keeps lp h1 h2 -> keeps lp h2 h3 -> keeps lp h1 h3.
Proof. intros H12 H23 l o Hne H. eauto. Qed.

Lemma fresh_ne (h : gmap loc obj) (l : loc) (o : obj) :
  h !! l = Some o -> l <> fresh (dom h).
Proof.
  intros Hl ->. apply (is_fresh (dom h)). apply elem_of_dom. eauto.
Qed.

Lemma keeps_alloc (lp : loc) (h : gmap loc obj) (o : obj) :
  keeps lp h (<[fresh (dom h) := o]> h).
Proof.
  intros l o' _ Hl. rewrite lookup_insert_ne; [done|].
  intros E. by apply (fresh_ne h l o').
Qed.

Lemma keeps_write (lp : loc) (h : gmap loc obj) (o : obj) :
  keeps lp h (<[lp := o]> h).
Proof. intros l o' Hne Hl. by rewrite lookup_insert_ne. Qed.

Lemma pk_step_frame (raw lp : loc) (x : val) (st : St) :
  let '(st', _) := pk_step raw lp x st in
  keeps lp (heap st) (heap st') /\ log st' = log st /\ sent st' = sent st.
Proof.
  cbv [pk_step bindM is_true getitem deref iter alloc list_append retM raise].
  repeat (case_match; simplify_eq); cbn [heap log sent set_heap] in *;
    split_and!; try done;
    first [ apply keeps_refl | apply keeps_alloc
          | eapply keeps_trans; [apply keeps_alloc | apply keeps_write] ].
Qed.

Lemma pk_loop_frame (raw lp : loc) (pvs : list val) :
  forall st : St,
  let '(st', _) := mfor pvs (pk_step raw lp) st in
  keeps lp (heap st) (heap st') /\ log st' = log st /\ sent st' = sent st.
Proof.
  induction pvs as [|x pvs IH]; intros st.
  - simpl. split_and!; [apply keeps_refl|done|done].
  - rewrite mfor_cons. pose proof (pk_step_frame raw lp x st) as Hs.
    destruct (pk_step raw lp x st) as [st1 [e|[]]]; [done|].
    specialize (IH st1). destruct (mfor pvs (pk_step raw lp) st1) as [st2 r].
    destruct Hs as (Hk1 & Hl1 & Hs1), IH as (Hk2 & Hl2 & Hs2).
    split_and!; [by eapply keeps_trans | congruence | congruence].
Qed.

(** Running [m] then [k]. *)
Lemma bind_ok {A B} (m : M A) (k : A -> M B) (st st' : St) (x : A) :
  m st = (st', inr x) -> bindM m k st = k x st'.
Proof. intros E. unfold bindM. by rewrite E. Qed.

Lemma bind_err {A B} (m : M A) (k : A -> M B) (st st' : St) (e : exc) :
  m st = (st', inl e) -> bindM m k st = (st', inl e).
Proof. intros E. unfold bindM. by rewrite E. Qed.

Lemma deref_ok (l : loc) (o : obj) (st : St) :
  heap st !! l = Some o -> deref l st = (st, inr o).
Proof. intros E. unfold deref. by rewrite E. Qed.

Lemma alloc_eq (o : obj) (st : St) :
  alloc o st = (set_heap (<[fresh (dom (heap st)) := o]> (heap st)) st,
                inr (fresh (dom (heap st)))).
Proof. reflexivity. Qed.

Lemma setitem_ok (l : loc) (m : gmap string val) (k : string) (v : val) (st : St) :
  heap st !! l = Some (ODict m) ->
  setitem l k v st = (set_heap (<[l := ODict (<[k := v]> m)]> (heap st)) st, inr tt).
Proof. intros E. unfold setitem, bindM, deref. by rewrite E. Qed.

Lemma delitem_ok (l : loc) (m : gmap string val) (k : string) (v : val) (st : St) :
  heap st !! l = Some (ODict m) -> m !! k = Some v ->
  delitem l k st = (set_heap (<[l := ODict (delete k m)]> (heap st)) st, inr tt).
Proof. intros E Ek. unfold delitem, bindM, deref. rewrite E. simpl. by rewrite Ek. Qed.

Lemma delitem_missing (l : loc) (m : gmap string val) (k : string) (st : St) :
  heap st !! l = Some (ODict m) -> m !! k = None ->
  delitem l k st = (st, inl (KeyError k)).
Proof. intros E Ek. unfold delitem, bindM, deref. rewrite E. simpl. by rewrite Ek. Qed.

Lemma getitem_ok (l : loc) (m : gmap string val) (k : string) (v : val) (st : St) :
  heap st !! l = Some (ODict m) -> m !! k = Some v ->
  getitem l k st = (st, inr v).
Proof. intros E Ek. unfold getitem, bindM, deref. rewrite E. simpl. by rewrite Ek. Qed.
Lemma EventData_dict (raw : loc) (st : St) (d : gmap string val) :
  heap st !! raw = Some (ODict d) ->
  exists s lp st5 stE,
    (s ∉ dom (heap st)) /\ (lp ∉ dom (heap st)) /\ s <> lp /\
    heap st5 = <[lp := OList []]> (<[s := ODict (result_dict d lp)]> (heap st)) /\
    log st5 = log st /\ sent st5 = sent st /\
    heap st ⊆ heap stE /\ log stE = log st /\ sent stE = sent st /\
    EventData raw st =
      match d !! "PkColNames", d !! "PkValues" with
      | None, _ => (stE, inl (KeyError "PkColNames"))
      | Some _, None => (stE, inl (KeyError "PkValues"))
      | Some cols, Some pv =>
          if negb (truthy (heap st5) cols) then (st5, inr s) else
          match py_iter (heap st5) pv with
          | None => (st5, inl TypeError)
          | Some pvs =>
              match mfor pvs (pk_step raw lp) st5 with
              | (st', inl e) => (st', inl e)
              | (st', inr _) => (st', inr s)
              end
          end
      end.
Proof.
  intros Hraw. unfold EventData.
  rewrite (bind_ok _ _ st st (ODict d)) by (by apply deref_ok).
  rewrite (bind_ok _ _ _ _ _ (alloc_eq _ _)).
  set (s := fresh (dom (heap st))).
  rewrite (bind_ok _ _ _ _ tt (copy_loop s _ (set_heap (<[s:=ODict ∅]> (heap st)) st) ∅
    (lookup_insert_eq _ _ _))).
  rewrite copy_all.
  rewrite (bind_ok _ _ _ _ _ (alloc_eq _ _)).
  cbn [heap set_heap].
  set (lp := fresh (dom (<[s:=ODict d]> (<[s:=ODict ∅]> (heap st))))).
  assert (Hs : s ∉ dom (heap st)) by apply is_fresh.
  assert (Hlp : lp ∉ dom (<[s:=ODict d]> (<[s:=ODict ∅]> (heap st)))) by apply is_fresh.
  rewrite !dom_insert_L in Hlp.
  assert (Hne : s <> lp) by set_solver.
  assert (Hlp' : lp ∉ dom (heap st)) by set_solver.
  assert (Hrs : raw <> s) by (intros ->; apply Hs, elem_of_dom; eauto).
  assert (Hrl : raw <> lp) by (intros ->; apply Hlp', elem_of_dom; eauto).
  rewrite insert_insert_eq.
  erewrite bind_ok; [| apply setitem_ok; cbn [heap set_heap]; by simplify_map_eq].
  cbn [set_heap heap log sent].
  set (st5 := mkSt (<[lp := OList []]> (<[s := ODict (result_dict d lp)]> (heap st)))
                   (log st) (sent st)).
  exists s, lp, st5.
  destruct (d !! "PkColNames") as [cols|] eqn:Hc.
  2: { erewrite bind_err; [| eapply delitem_missing; [by simplify_map_eq|]].
       2: { by rewrite lookup_insert_ne. }
       eexists. split_and!; [..|reflexivity]; try done.
       cbn [heap set_heap]. apply insert_subseteq_r; [by apply not_elem_of_dom|].
       apply insert_subseteq_r; [by apply not_elem_of_dom|]. apply insert_subseteq.
       by apply not_elem_of_dom. }
  erewrite bind_ok; [| eapply delitem_ok; [by simplify_map_eq|]].
  2: { by rewrite lookup_insert_ne. }
  destruct (d !! "PkValues") as [pv|] eqn:Hv.
  2: { erewrite bind_err; [| eapply delitem_missing; [by simplify_map_eq|]].
       2: { by rewrite lookup_delete_ne, lookup_insert_ne. }
       eexists. split_and!; [..|reflexivity]; try done.
       cbn [heap set_heap]. apply insert_subseteq_r; [by apply not_elem_of_dom|].
       apply insert_subseteq_r; [by apply not_elem_of_dom|].
       apply insert_subseteq_r; [by apply not_elem_of_dom|]. apply insert_subseteq.
       by apply not_elem_of_dom. }
  erewrite bind_ok; [| eapply delitem_ok; [by simplify_map_eq|]].
  2: { by rewrite lookup_delete_ne, lookup_insert_ne. }
  erewrite bind_ok; [| eapply getitem_ok; [cbn [heap set_heap]; by simplify_map_eq | exact Hc]].
  erewrite bind_ok; [| reflexivity].
  cbn [set_heap heap log sent].
  assert (Heq : forall A B C : obj,
    <[s:=A]> (<[s:=B]> (<[s:=C]> (<[lp:=OList []]> (<[s:=ODict d]> (heap st))))) =
    <[lp:=OList []]> (<[s:=A]> (heap st))).
  { intros A B C. rewrite !insert_insert_eq. rewrite insert_insert_ne by done.
    by rewrite insert_insert_eq. }
  lazymatch goal with
  | |- context [ (if _ then retM s else ?k) ?stX ] =>
      replace stX with st5
        by (unfold st5, set_heap; cbn [heap log sent]; unfold result_dict; by rewrite Heq)
  end.
  rewrite Heq.
  exists st5.
  split_and!; try done.
  { unfold st5; cbn [heap]. apply insert_subseteq_r; [by apply not_elem_of_dom|].
    apply insert_subseteq. by apply not_elem_of_dom. }
  lazymatch goal with |- context [truthy ?h cols] => change h with (heap st5) end.
  destruct (negb (truthy (heap st5) cols)); [done|].
  erewrite bind_ok; [| eapply getitem_ok; [cbn [heap set_heap]; by simplify_map_eq | exact Hv]].
  unfold bindM at 1, iter at 1.
  destruct (py_iter (heap st5) pv) as [pvs|]; [|done].
  unfold bindM. destruct (mfor pvs (pk_step raw lp) st5) as [st' [e|[]]]; done.
Qed.

Lemma EventData_not_dict (raw : loc) (st : St) :
  (forall d, heap st !! raw <> Some (ODict d)) ->
  exists e, EventData raw st = (st, inl e).
Proof.
  intros Hnd. unfold EventData, bindM, deref.
  destruct (heap st !! raw) as [[d| |]|]; try by eexists.
  by destruct (Hnd d).
Qed.

Lemma sub_via_keeps (h h5 h' : gmap loc obj) (lp : loc) :
  h ⊆ h5 -> lp ∉ dom h -> keeps lp h5 h' -> h ⊆ h'.
Proof.
  intros Hsub Hlp Hk. apply map_subseteq_spec. intros l o Hl.
  apply Hk; [|by eapply lookup_weaken].
  intros ->. apply Hlp, elem_of_dom. eauto.
Qed.

(** Decoding never changes an object that existed before it started. *)
Lemma EventData_frame (raw : loc) (st : St) :
  let '(st', _) := EventData raw st in
  heap st ⊆ heap st' /\ log st' = log st /\ sent st' = sent st.
Proof.
  destruct (heap st !! raw) as [[d| |]|] eqn:Hraw.
  1: destruct (EventData_dict raw st d Hraw)
      as (s & lp & st5 & stE & Hs & Hlp & Hne & H5 & L5 & S5 & HE & LE & SE & ->).
    assert (Hsub5 : heap st ⊆ heap st5).
    { rewrite H5. apply insert_subseteq_r; [by apply not_elem_of_dom|].
      apply insert_subseteq. by apply not_elem_of_dom. }
    destruct (d !! "PkColNames") as [cols|]; [|done].
    destruct (d !! "PkValues") as [pv|]; [|done].
    destruct (negb (truthy (heap st5) cols)); [done|].
    destruct (py_iter (heap st5) pv) as [pvs|]; [|done].
    pose proof (pk_loop_frame raw lp pvs st5) as Hf.
    destruct (mfor pvs (pk_step raw lp) st5) as [st' r].
    destruct Hf as (Hk & Hl & Hsn).
    assert (heap st ⊆ heap st') by (by eapply sub_via_keeps).
    destruct r; split_and!; first [done | congruence].
  all: destruct (EventData_not_dict raw st) as [e ->]; [|done].
  all: intros d' Hd; congruence.
Qed.

Lemma iter_ok (v : val) (xs : list val) (st : St) :
  py_iter (heap st) v = Some xs -> iter v st = (st, inr xs).
Proof. intros E. unfold iter. by rewrite E. Qed.

Lemma iter_err (v : val) (st : St) :
  py_iter (heap st) v = None -> iter v st = (st, inl TypeError).
Proof. intros E. unfold iter. by rewrite E. Qed.

Lemma list_append_ok (l : loc) (vs : list val) (v : val) (st : St) :
  heap st !! l = Some (OList vs) ->
  list_append l v st = (set_heap (<[l := OList (vs ++ [v])]> (heap st)) st, inr tt).
Proof. intros E. unfold list_append, bindM, deref. by rewrite E. Qed.

Lemma spec_loop_cons (h : gmap loc obj) (cols x : val) (xs : list val) :
  spec_loop h cols (x :: xs) =
  match step_spec h cols x with
  | inl e => inl e
  | inr r => match spec_loop h cols xs with
             | inl e => inl e
             | inr R => inr (r ++ R)
             end
  end.
Proof.
  unfold step_spec. simpl. destruct (truthy h x); [|by destruct (spec_loop h cols xs)].
  by destruct (py_iter h cols), (py_iter h x).
Qed.

Lemma pk_step_spec (raw lp : loc) (d : gmap string val) (cols x : val)
    (h0 : gmap loc obj) (st : St) (R : list (list val)) :
  h0 !! raw = Some (ODict d) -> d !! "PkColNames" = Some cols ->
  top_ok h0 cols -> top_ok h0 x -> h0 ⊆ heap st -> rows_inv (heap st) lp R ->
  let '(st', r) := pk_step raw lp x st in
  match r, step_spec h0 cols x with
  | inl e, inl e' => e = e'
  | inr _, inr r' => rows_inv (heap st') lp (R ++ r')
  | _, _ => False
  end.
Proof.
  intros Hraw Hc Hokc Hokx Hsub (ls & Hlp & Hrows).
  assert (Hraw' : heap st !! raw = Some (ODict d)) by (by eapply lookup_weaken).
  unfold pk_step, step_spec.
  erewrite bind_ok; [|reflexivity].
  rewrite (truthy_mono h0 (heap st) x) by done.
  destruct (truthy h0 x); cbn [negb].
  2: { rewrite app_nil_r. by exists ls. }
  erewrite bind_ok; [| by eapply getitem_ok].
  destruct (py_iter h0 cols) as [cs|] eqn:Ec.
  2: { erewrite bind_err; [| apply iter_err; by rewrite (py_iter_mono h0)]. done. }
  erewrite bind_ok; [| apply iter_ok; by rewrite (py_iter_mono h0)].
  destruct (py_iter h0 x) as [ps|] eqn:Ex.
  2: { erewrite bind_err; [| apply iter_err; by rewrite (py_iter_mono h0)]. done. }
  erewrite bind_ok; [| apply iter_ok; by rewrite (py_iter_mono h0)].
  erewrite bind_ok; [| apply alloc_eq].
  set (nl := fresh (dom (heap st))).
  assert (Hnl : lp <> nl) by (by eapply fresh_ne).
  rewrite (list_append_ok lp (map VRef ls))
    by (cbn [heap set_heap]; by rewrite lookup_insert_ne).
  cbn [heap set_heap].
  exists (ls ++ [nl]). split.
  - rewrite lookup_insert_eq. by rewrite map_app.
  - apply Forall2_app.
    + eapply Forall2_impl; [exact Hrows|]. intros l r [Hne Hl]. split; [done|].
      rewrite lookup_insert_ne by done. rewrite lookup_insert_ne; [done|].
      apply not_eq_sym. by eapply fresh_ne.
    + constructor; [|constructor]. split; [done|].
      rewrite lookup_insert_ne by done. apply lookup_insert_eq.
Qed.

Lemma pk_loop_spec (raw lp : loc) (d : gmap string val) (cols : val) (h0 : gmap loc obj) :
  h0 !! raw = Some (ODict d) -> d !! "PkColNames" = Some cols ->
  top_ok h0 cols -> lp ∉ dom h0 ->
  forall (pvs : list val) (st : St) (R : list (list val)),
  Forall (top_ok h0) pvs -> h0 ⊆ heap st -> rows_inv (heap st) lp R ->
  let '(st', r) := mfor pvs (pk_step raw lp) st in
  match r, spec_loop h0 cols pvs with
  | inl e, inl e' => e = e'
  | inr _, inr R' => rows_inv (heap st') lp (R ++ R')
  | _, _ => False
  end.
Proof.
  intros Hraw Hc Hokc Hlp. induction pvs as [|x xs IH]; intros st R Hok Hsub Hinv.
  - simpl. by rewrite app_nil_r.
  - inversion Hok as [|?? Hokx Hokxs]; subst.
    rewrite mfor_cons, spec_loop_cons.
    pose proof (pk_step_spec raw lp d cols x h0 st R Hraw Hc Hokc Hokx Hsub Hinv) as Hs.
    pose proof (pk_step_frame raw lp x st) as Hf.
    destruct (pk_step raw lp x st) as [st1 [e|[]]];
      destruct (step_spec h0 cols x) as [e'|r]; try done.
    destruct Hf as (Hk & _ & _).
    assert (Hsub1 : h0 ⊆ heap st1) by (by eapply sub_via_keeps).
    specialize (IH st1 (R ++ r) Hokxs Hsub1 Hs).
    destruct (mfor xs (pk_step raw lp) st1) as [st2 r2].
    destruct r2, (spec_loop h0 cols xs); try done.
    by rewrite app_assoc.
Qed.

(** The decoder, run on a reply dictionary, raises what [decode_spec]
    says, or returns a fresh dictionary [result_dict d lp] whose [PkRows]
    list at [lp] holds the rows [decode_spec] computes. *)
Lemma EventData_correct (raw : loc) (st : St) (d : gmap string val) :
  heap st !! raw = Some (ODict d) -> ready (heap st) d ->
  let '(st', r) := EventData raw st in
  heap st ⊆ heap st' /\ log st' = log st /\ sent st' = sent st /\
  match r, decode_spec (heap st) d with
  | inl e, inl e' => e = e'
  | inr self, inr R =>
      (self ∉ dom (heap st)) /\
      exists lp, heap st' !! self = Some (ODict (result_dict d lp)) /\
                 rows_inv (heap st') lp R
  | _, _ => False
  end.
Proof.
  intros Hraw [Hrc Hrv].
  pose proof (EventData_frame raw st) as Hf.
  destruct (EventData_dict raw st d Hraw)
    as (s & lp & st5 & stE & Hs & Hlp & Hne & H5 & L5 & S5 & HE & LE & SE & Heq).
  rewrite Heq in Hf |- *.
  assert (Hsub5 : heap st ⊆ heap st5).
  { rewrite H5. apply insert_subseteq_r; [by apply not_elem_of_dom|].
    apply insert_subseteq. by apply not_elem_of_dom. }
  assert (Hs5 : heap st5 !! s = Some (ODict (result_dict d lp))).
  { rewrite H5, lookup_insert_ne by done. apply lookup_insert_eq. }
  assert (Hinv5 : rows_inv (heap st5) lp []).
  { exists []. split; [|constructor]. rewrite H5. apply lookup_insert_eq. }
  unfold decode_spec.
  destruct (d !! "PkColNames") as [cols|] eqn:Hc; [|by destruct Hf as (?&?&?)].
  destruct (d !! "PkValues") as [pv|] eqn:Hv; [|by destruct Hf as (?&?&?)].
  specialize (Hrc cols eq_refl). destruct (Hrv pv eq_refl) as [Hokpv Hitems].
  rewrite (truthy_mono (heap st) (heap st5)) in Hf |- * by done.
  destruct (truthy (heap st) cols); cbn [negb] in Hf |- *.
  2: { destruct Hf as (?&?&?). split_and!; try done. eauto. }
  rewrite (py_iter_mono (heap st) (heap st5)) in Hf |- * by done.
  destruct (py_iter (heap st) pv) as [pvs|] eqn:Hpvs; [|by destruct Hf as (?&?&?)].
  pose proof (pk_loop_spec raw lp d cols (heap st) Hraw Hc Hrc Hlp pvs st5 []
                (Hitems pvs eq_refl) Hsub5 Hinv5) as Hl.
  pose proof (pk_loop_frame raw lp pvs st5) as Hk.
  destruct (mfor pvs (pk_step raw lp) st5) as [st' r].
  destruct Hk as (Hk&_&_).
  destruct r; destruct Hf as (?&?&?); split_and!; try done;
    destruct (spec_loop (heap st) cols pvs); try done.
  split; [done|]. exists lp. split; [by apply Hk|done].
Qed.

(** ** Closed stores *)

Lemma closed_lookup (h : gmap loc obj) (l : loc) (o : obj) (l' : loc) :
  closed_heap h = true -> h !! l = Some o -> In l' (obj_refs o) -> is_Some (h !! l').
Proof.
  unfold closed_heap. rewrite forallb_forall. intros Hc Hl Hin.
  assert (Hm : In (l, o) (map_to_list h)).
  { apply list_elem_of_In. by apply elem_of_map_to_list. }
  specialize (Hc _ Hm). simpl in Hc. rewrite forallb_forall in Hc.
  specialize (Hc _ Hin). by apply bool_decide_eq_true in Hc.
Qed.

Lemma top_ok_of_refs (h : gmap loc obj) (v : val) :
  (forall l, In l (val_refs v) -> is_Some (h !! l)) -> top_ok h v.
Proof. destruct v; simpl; try done. intros H. apply H. by left. Qed.

Lemma val_refs_tuple (vs : list val) (x : val) (l : loc) :
  In x vs -> In l (val_refs x) -> In l (val_refs (VTuple vs)).
Proof.
  induction vs as [|y vs IH]; simpl; [done|].
  intros [->|Hx] Hl; apply in_or_app; [by left|right]. by apply IH.
Qed.

Lemma dict_refs (d : gmap string val) (k : string) (v : val) (l : loc) :
  d !! k = Some v -> In l (val_refs v) -> In l (obj_refs (ODict d)).
Proof.
  intros Hk Hl. simpl. apply in_concat. exists (val_refs v). split; [|done].
  apply in_map_iff. exists (k, v). split; [done|].
  apply list_elem_of_In. by apply elem_of_map_to_list.
Qed.

Lemma str_chars_ok (h : gmap loc obj) (s : string) : Forall (top_ok h) (str_chars s).
Proof. induction s; simpl; by constructor. Qed.

Lemma closed_ready (h : gmap loc obj) (raw : loc) (d : gmap string val) :
  closed_heap h = true -> h !! raw = Some (ODict d) -> ready h d.
Proof.
  intros Hc Hraw.
  assert (Hval : forall k v l, d !! k = Some v -> In l (val_refs v) -> is_Some (h !! l)).
  { intros k v l Hk Hl. eapply closed_lookup; [done|exact Hraw|]. by eapply dict_refs. }
  split.
  - intros cols Hcols. apply top_ok_of_refs. eauto.
  - intros pv Hpv. split; [apply top_ok_of_refs; eauto|].
    intros pvs Hit. destruct pv as [| | |s|vs|l]; simpl in Hit; try done.
    + injection Hit as <-. apply str_chars_ok.
    + injection Hit as <-. apply Forall_forall. intros x Hx. apply top_ok_of_refs.
      intros l Hl. apply (Hval _ _ l Hpv). eapply val_refs_tuple; [|done].
      by apply list_elem_of_In.
    + destruct (h !! l) as [[d'|vs|g s]|] eqn:Hl; try done; injection Hit as <-.
      * apply Forall_forall. intros x Hx. apply list_elem_of_In, in_map_iff in Hx.
        by destruct Hx as (kv & <- & _).
      * apply Forall_forall. intros x Hx. apply top_ok_of_refs. intros l' Hl'.
        eapply closed_lookup; [done|exact Hl|]. simpl. apply in_concat.
        exists (val_refs x). split; [|done]. apply in_map. by apply list_elem_of_In.
Qed.

Lemma top_ok_mono (h h' : gmap loc obj) (v : val) :
  h ⊆ h' -> top_ok h v -> top_ok h' v.
Proof.
  intros Hs. destruct v; simpl; try done. intros [o Ho]. exists o.
  by eapply lookup_weaken.
Qed.

Lemma ready_mono (h h' : gmap loc obj) (d : gmap string val) :
  h ⊆ h' -> ready h d -> ready h' d.
Proof.
  intros Hs [Hc Hv]. split.
  - intros cols E. eapply top_ok_mono; eauto.
  - intros pv E. destruct (Hv pv E) as [Hok Hit]. split; [by eapply top_ok_mono|].
    intros pvs Hp. rewrite (py_iter_mono h h') in Hp by done.
    eapply Forall_impl; [by apply Hit|]. intros x. by apply top_ok_mono.
Qed.

Lemma spec_loop_mono (h h' : gmap loc obj) (cols : val) (pvs : list val) :
  h ⊆ h' -> top_ok h cols -> Forall (top_ok h) pvs ->
  spec_loop h' cols pvs = spec_loop h cols pvs.
Proof.
  intros Hs Hc. induction 1 as [|x xs Hx Hxs IH]; [done|]. simpl.
  rewrite (truthy_mono h h'), (py_iter_mono h h' cols), (py_iter_mono h h' x) by done.
  by rewrite IH.
Qed.

Lemma decode_spec_mono (h h' : gmap loc obj) (d : gmap string val) :
  h ⊆ h' -> ready h d -> decode_spec h' d = decode_spec h d.
Proof.
  intros Hs [Hc Hv]. unfold decode_spec.
  destruct (d !! "PkColNames") as [cols|] eqn:E1; [|done].
  destruct (d !! "PkValues") as [pv|] eqn:E2; [|done].
  specialize (Hc _ eq_refl). destruct (Hv _ eq_refl) as [Hok Hit].
  rewrite (truthy_mono h h'), (py_iter_mono h h' pv) by done.
  destruct (truthy h cols); [|done].
  destruct (py_iter h pv) as [pvs|] eqn:E3; [|done].
  apply spec_loop_mono; auto.
Qed.

(** ** Reading back the decoded rows *)

Lemma rows_inv_rows_of (h : gmap loc obj) (lp : loc) (R : list (list val)) :
  rows_inv h lp R -> rows_of h lp = Some R.
Proof.
  intros (ls & Hlp & Hr). unfold rows_of. rewrite Hlp. clear Hlp.
  induction Hr as [|l r ls R [_ Hl] _ IH]; [done|]. simpl. rewrite Hl. simpl.
  by rewrite IH.
Qed.

Lemma result_dict_PkRows (d : gmap string val) (lp : loc) :
  result_dict d lp !! "PkRows" = Some (VRef lp).
Proof.
  unfold result_dict. rewrite !lookup_delete_ne by done. apply lookup_insert_eq.
Qed.

Lemma pk_rows_of_result (h : gmap loc obj) (ev lp : loc) (d : gmap string val)
    (R : list (list val)) :
  h !! ev = Some (ODict (result_dict d lp)) -> rows_inv h lp R ->
  pk_rows_of h ev = Some R.
Proof.
  intros Hev Hinv. unfold pk_rows_of. rewrite Hev, result_dict_PkRows.
  by apply rows_inv_rows_of.
Qed.

Lemma rows_inv_mono (h h' : gmap loc obj) (lp : loc) (R : list (list val)) :
  h ⊆ h' -> rows_inv h lp R -> rows_inv h' lp R.
Proof.
  intros Hs (ls & Hlp & Hr). exists ls. split; [by eapply lookup_weaken|].
  eapply Forall2_impl; [exact Hr|]. intros l r [? ?]. split; [done|].
  by eapply lookup_weaken.
Qed.

Lemma deep_rows (n : nat) (h : gmap loc obj) (l1 l2 : loc) (R : list (list val)) :
  rows_inv h l1 R -> rows_inv h l2 R -> deep n h (VRef l1) = deep n h (VRef l2).
Proof.
  intros (ls1 & H1 & R1) (ls2 & H2 & R2). destruct n as [|n]; [done|]. simpl.
  rewrite H1, H2. clear H1 H2. f_equal. revert ls2 R2.
  induction R1 as [|l r ls1 R [_ Hl] _ IH]; intros ls2 R2;
    inversion R2 as [|l' ? ls2' ? [_ Hl'] R2']; subst; [done|].
  simpl. f_equal; [|by apply IH].
  destruct n; [done|]. simpl. by rewrite Hl, Hl'.
Qed.

Lemma deep_result (n : nat) (h : gmap loc obj) (ev1 ev2 lp1 lp2 : loc)
    (d : gmap string val) (R : list (list val)) :
  h !! ev1 = Some (ODict (result_dict d lp1)) -> rows_inv h lp1 R ->
  h !! ev2 = Some (ODict (result_dict d lp2)) -> rows_inv h lp2 R ->
  deep n h (VRef ev1) = deep n h (VRef ev2).
Proof.
  intros E1 I1 E2 I2. destruct n as [|n]; [done|]. simpl. rewrite E1, E2.
  unfold result_dict. rewrite !fmap_delete, !fmap_insert.
  by rewrite (deep_rows n h lp1 lp2 R).
Qed.

(** Whatever the store, a successful decoding returns a dictionary of the
    shape [result_dict]. *)
Lemma EventData_result_dict (raw : loc) (st st' : St) (ev : loc) :
  EventData raw st = (st', inr ev) ->
  exists d lp, heap st' !! ev = Some (ODict (result_dict d lp)).
Proof.
  intros E. destruct (heap st !! raw) as [[d| |]|] eqn:Hraw.
  2-4: destruct (EventData_not_dict raw st) as [e E']; [intros d' Hd; congruence|];
       congruence.
  destruct (EventData_dict raw st d Hraw)
    as (s & lp & st5 & stE & Hs & Hlp & Hne & H5 & L5 & S5 & HE & LE & SE & Heq).
  rewrite Heq in E. exists d, lp.
  assert (Hs5 : heap st5 !! s = Some (ODict (result_dict d lp))).
  { rewrite H5, lookup_insert_ne by done. apply lookup_insert_eq. }
  destruct (d !! "PkColNames") as [cols|]; [|done].
  destruct (d !! "PkValues") as [pv|]; [|done].
  destruct (negb (truthy (heap st5) cols)); [by simplify_eq|].
  destruct (py_iter (heap st5) pv) as [pvs|]; [|done].
  pose proof (pk_loop_frame raw lp pvs st5) as Hk.
  destruct (mfor pvs (pk_step raw lp) st5) as [st'' [e|[]]]; simplify_eq.
  destruct Hk as (Hk & _ & _). by apply Hk.
Qed.

(** ** The connection's operations *)

Lemma stream_read_cases (p : pull) (st : St) :
  stream_read p st =
  match p with
  | PullRaise e => (st, inl e)
  | PullEnd => (st, inr None)
  | PullReply reply =>
      match EventData reply st with
      | (st', inl e) => (st', inl e)
      | (st', inr ev) => (st', inr (Some ev))
      end
  end.
Proof.
  destruct p as [e| |reply]; reflexivity.
Qed.

Lemma stream_start_eq (ce : option exc) (p : pull) (pos : val) (st : St) :
  stream_start ce p pos st =
  let q := fresh (dom (heap st)) in
  let st1 := mkSt (<[q := ODict {["GroupId" := pos]}]> (heap st)) (log st)
                  (sent st ++ [("UpdateStream.ServeUpdateStream", VRef q)]) in
  match ce with
  | Some e => stream_start_except e st1
  | None => catch (stream_read p) stream_start_except st1
  end.
Proof. by destruct ce. Qed.

Lemma stream_start_except_eq (e : exc) (st : St) :
  stream_start_except e st =
  if is_GoRpcError e then (st, inl (OperationalError (exc_args e)))
  else (mkSt (heap st) (log st ++ [e]) (sent st), inl e).
Proof. unfold stream_start_except. by destruct (is_GoRpcError e). Qed.

Lemma stream_next_except_eq (e : exc) (st : St) :
  stream_next_except e st =
  if is_AppError e then (st, inl (DatabaseError (exc_args e)))
  else if is_GoRpcError e then (st, inl (OperationalError (exc_args e)))
  else (mkSt (heap st) (log st ++ [e]) (sent st), inl e).
Proof.
  unfold stream_next_except. by destruct (is_AppError e), (is_GoRpcError e).
Qed.

Lemma stream_start_except_err (e : exc) (st : St) :
  heap (stream_start_except e st).1 = heap st /\
  sent (stream_start_except e st).1 = sent st /\
  exists e', (stream_start_except e st).2 = inl e'.
Proof. rewrite stream_start_except_eq. destruct (is_GoRpcError e); eauto. Qed.

Lemma stream_next_except_err (e : exc) (st : St) :
  exists e', (stream_next_except e st).2 = inl e'.
Proof.
  rewrite stream_next_except_eq. destruct (is_AppError e), (is_GoRpcError e); eauto.
Qed.

Lemma catch_read (handler : exc -> M (option loc)) (p : pull) (st : St) :
  catch (stream_read p) handler st =
  match p with
  | PullRaise e => handler e st
  | PullEnd => (st, inr None)
  | PullReply reply =>
      match EventData reply st with
      | (st', inl e) => handler e st'
      | (st', inr ev) => (st', inr (Some ev))
      end
  end.
Proof.
  unfold catch. rewrite stream_read_cases.
  destruct p as [e| |reply]; [done|done|].
  by destruct (EventData reply st) as [? []].
Qed.

(** A value [Some ev] returned by [stream_start] or [stream_next] is the
    result of one run of [EventData]. *)
Lemma catch_read_event (handler : exc -> M (option loc)) (p : pull) (st : St) (ev : loc) :
  (forall e st0, exists e', (handler e st0).2 = inl e') ->
  (catch (stream_read p) handler st).2 = inr (Some ev) ->
  exists reply st0, EventData reply st0 = ((catch (stream_read p) handler st).1, inr ev).
Proof.
  intros Hh. rewrite catch_read. destruct p as [e| |reply].
  - destruct (Hh e st) as [e' ->]. done.
  - done.
  - destruct (EventData reply st) as [st' [e|ev']] eqn:E.
    + destruct (Hh e st') as [e' ->]. done.
    + simpl. intros [= ->]. eauto.
Qed.

Lemma stream_event (op : M (option loc)) (ce : option exc) (p : pull) (pos : val)
    (st : St) (ev : loc) :
  op = stream_start ce p pos \/ op = stream_next p ->
  (op st).2 = inr (Some ev) ->
  exists reply st0, EventData reply st0 = ((op st).1, inr ev).
Proof.
  intros [-> | ->].
  - rewrite stream_start_eq. cbv zeta. destruct ce as [e|].
    + destruct (stream_start_except_err e
        (mkSt (<[fresh (dom (heap st)) := ODict {["GroupId" := pos]}]> (heap st))
              (log st)
              (sent st ++ [("UpdateStream.ServeUpdateStream", VRef (fresh (dom (heap st))))])))
        as (_ & _ & e' & ->).
      done.
    + apply catch_read_event. intros e st0.
      destruct (stream_start_except_err e st0) as (_ & _ & H). exact H.
  - apply catch_read_event. apply stream_next_except_err.
Qed.

Lemma result_dict_keys (d : gmap string val) (lp : loc) :
  is_Some (result_dict d lp !! "PkRows") /\
  result_dict d lp !! "PkColNames" = None /\
  result_dict d lp !! "PkValues" = None.
Proof.
  split_and!.
  - rewrite result_dict_PkRows. eauto.
  - unfold result_dict. rewrite lookup_delete_ne by done. apply lookup_delete_eq.
  - unfold result_dict. apply lookup_delete_eq.
Qed.

(** ** What each [PkValues] entry contributes *)

Lemma spec_loop_contribs (h : gmap loc obj) (cols : val) (pvs : list val)
    (R : list (list val)) :
  spec_loop h cols pvs = inr R ->
  exists cs, Forall2 (contributes h) pvs cs /\ R = List.concat cs.
Proof.
  revert R. induction pvs as [|x xs IH]; intros R; simpl.
  - intros [= <-]. exists []. split; [constructor|done].
  - destruct (truthy h x) eqn:Hx.
    + destruct (py_iter h cols) as [cs|], (py_iter h x) as [ps|]; try done.
      destruct (spec_loop h cols xs) as [e|R'] eqn:E; [done|]. intros [= <-].
      destruct (IH R' eq_refl) as (cs' & Hf & ->).
      exists ([pair_row cs ps] :: cs'). split; [|done].
      constructor; [|done]. split; [congruence|simpl; lia].
    + intros E. destruct (IH R E) as (cs' & Hf & ->).
      exists ([] :: cs'). split; [|done].
      constructor; [|done]. split; [done|simpl; lia].
Qed.

Lemma contribs_nil (h : gmap loc obj) (pvs : list val) :
  Forall2 (contributes h) pvs (map (fun _ => []) pvs) /\
  List.concat (map (fun _ : val => @nil (list val)) pvs) = [].
Proof.
  induction pvs as [|x xs [IH1 IH2]]; simpl; [split; [constructor|done]|].
  split; [|done]. constructor; [|done]. split; [done|simpl; lia].
Qed.

Lemma decode_spec_contribs (h : gmap loc obj) (d : gmap string val) (pv : val)
    (pvs : list val) (R : list (list val)) :
  decode_spec h d = inr R -> d !! "PkValues" = Some pv -> py_iter h pv = Some pvs ->
  exists cs, Forall2 (contributes h) pvs cs /\ R = List.concat cs.
Proof.
  unfold decode_spec. intros E Hpv Hit. rewrite Hpv in E.
  destruct (d !! "PkColNames") as [cols|]; [|done].
  destruct (truthy h cols).
  - rewrite Hit in E. by eapply spec_loop_contribs.
  - injection E as <-. exists (map (fun _ => []) pvs). by destruct (contribs_nil h pvs).
Qed.

Lemma contribs_length (h : gmap loc obj) (pvs : list val) (cs : list (list (list val))) :
  Forall2 (contributes h) pvs cs -> List.length (List.concat cs) <= List.length pvs.
Proof.
  induction 1 as [|x c xs cs' [_ Hc] _ IH]; simpl; [lia|].
  rewrite length_app. lia.
Qed.

Lemma falsy_top_ok (h : gmap loc obj) (v : val) : truthy h v = false -> top_ok h v.
Proof.
  destruct v as [| | | | |l]; simpl; try done.
  destruct (h !! l) as [o|]; [eauto|done].
Qed.

(** * Properties of the connection and the decoder *)

(** C1 (as amended): [stream_start(start_position)] hands the transport
    exactly one request, [UpdateStream.ServeUpdateStream] with the
    argument [{'GroupId': start_position}]: the position the caller passes
    is forwarded as it is, whatever the transport and the reply do. *)
Theorem stream_start_request (ce : option exc) (p : pull) (pos : val) (st : St) :
  exists q,
    sent (stream_start ce p pos st).1 =
      sent st ++ [("UpdateStream.ServeUpdateStream", VRef q)] /\
    heap (stream_start ce p pos st).1 !! q = Some (ODict {["GroupId" := pos]}).
Proof.
  rewrite stream_start_eq. cbv zeta.
  set (q := fresh (dom (heap st))).
  set (st1 := mkSt (<[q := ODict {["GroupId" := pos]}]> (heap st)) (log st)
                   (sent st ++ [("UpdateStream.ServeUpdateStream", VRef q)])).
  assert (Hq : heap st1 !! q = Some (ODict {["GroupId" := pos]}))
    by apply lookup_insert_eq.
  exists q.
  assert (Hexc : forall e st', heap st1 ⊆ heap st' -> sent st' = sent st1 ->
            sent (stream_start_except e st').1 = sent st1 /\
            heap (stream_start_except e st').1 !! q = Some (ODict {["GroupId" := pos]})).
  { intros e st' Hs Hsn. destruct (stream_start_except_err e st') as (-> & -> & _).
    split; [done|]. by eapply lookup_weaken. }
  destruct ce as [e|].
  - by apply Hexc.
  - rewrite catch_read. destruct p as [e| |reply].
    + by apply Hexc.
    + done.
    + pose proof (EventData_frame reply st1) as Hf.
      destruct (EventData reply st1) as [st' [e|ev]]; destruct Hf as (Hs & _ & Hsn).
      * by apply Hexc.
      * split; [done|]. by eapply lookup_weaken.
Qed.

(** C1 (counterexample): with the position [Coord('g1', 's1')], whose
    [ServerId] is set, the request argument is [{'GroupId': Coord('g1',
    's1')}]: it carries the [ServerId] and is not [{'GroupId': 'g1'}]. *)
Lemma stream_start_sends_server_id :
  exists q,
    sent (stream_start None PullEnd (VRef 1%positive) coord_state).1 =
      [("UpdateStream.ServeUpdateStream", VRef q)] /\
    deep 3 (heap (stream_start None PullEnd (VRef 1%positive) coord_state).1) (VRef q) =
      DDict [("GroupId", DCoord (DStr "g1") (DStr "s1"))] /\
    deep 3 (heap (stream_start None PullEnd (VRef 1%positive) coord_state).1) (VRef q) <>
      DDict [("GroupId", DStr "g1")].
Proof.
  exists 2%positive. split_and!; [vm_compute; reflexivity | vm_compute; reflexivity |].
  vm_compute. discriminate.
Qed.

(** C2: an [AppError] raised while pulling a reply is classified
    differently by the two operations: [stream_next] turns it into
    [DatabaseError], while [stream_start], which has no [except
    gorpc.AppError] clause, turns it into [OperationalError]. *)
Theorem app_error_classified_differently (a : list val) (pos : val) (st : St) :
  (stream_start None (PullRaise (AppError a)) pos st).2 = inl (OperationalError a) /\
  (stream_next (PullRaise (AppError a)) st).2 = inl (DatabaseError a).
Proof.
  split.
  - rewrite stream_start_eq. cbv zeta. rewrite catch_read, stream_start_except_eq.
    reflexivity.
  - unfold stream_next. rewrite catch_read, stream_next_except_eq. reflexivity.
Qed.

(** C5: [stream_start] and [stream_next] return [None] exactly when the
    transport reports the end of the stream (and, for [stream_start], the
    call itself did not raise); a [None] result is never an exception. *)
Theorem stream_none_iff_end (ce : option exc) (p : pull) (pos : val) (st : St) :
  ((stream_start ce p pos st).2 = inr None <-> ce = None /\ p = PullEnd) /\
  ((stream_next p st).2 = inr None <-> p = PullEnd).
Proof.
  assert (Hread : forall (handler : exc -> M (option loc)) st0,
            (forall e st', exists e', (handler e st').2 = inl e') ->
            ((catch (stream_read p) handler st0).2 = inr None <-> p = PullEnd)).
  { intros handler st0 Hh. rewrite catch_read. destruct p as [e| |reply].
    - destruct (Hh e st0) as [e' ->]. split; discriminate.
    - done.
    - destruct (EventData reply st0) as [st' [e|ev]].
      + destruct (Hh e st') as [e' ->]. split; discriminate.
      + split; discriminate. }
  assert (Hstart : forall e st', exists e', (stream_start_except e st').2 = inl e').
  { intros e st'. by destruct (stream_start_except_err e st') as (_ & _ & H). }
  split.
  - rewrite stream_start_eq. cbv zeta. destruct ce as [e|].
    + destruct (Hstart e
        (mkSt (<[fresh (dom (heap st)) := ODict {["GroupId" := pos]}]> (heap st))
              (log st)
              (sent st ++ [("UpdateStream.ServeUpdateStream", VRef (fresh (dom (heap st))))])))
        as [e' ->].
      split; [discriminate|]. by intros [? _].
    + rewrite Hread by done. split; [done|]. by intros [_ ?].
  - apply Hread. apply stream_next_except_err.
Qed.

(** C8: an exception from pulling a reply that is neither an [AppError]
    nor a [GoRpcError] is logged once and re-raised unchanged, by both
    operations; [stream_next] changes nothing else. *)
Theorem unknown_error_reraised (e : exc) (pos : val) (st : St) :
  is_GoRpcError e = false ->
  (stream_start None (PullRaise e) pos st).2 = inl e /\
  log (stream_start None (PullRaise e) pos st).1 = log st ++ [e] /\
  stream_next (PullRaise e) st = (mkSt (heap st) (log st ++ [e]) (sent st), inl e).
Proof.
  intros He.
  assert (Ha : is_AppError e = false) by (destruct e; done).
  split_and!.
  - rewrite stream_start_eq. cbv zeta. rewrite catch_read, stream_start_except_eq, He.
    reflexivity.
  - rewrite stream_start_eq. cbv zeta. rewrite catch_read, stream_start_except_eq, He.
    reflexivity.
  - unfold stream_next. rewrite catch_read, stream_next_except_eq, Ha, He. reflexivity.
Qed.

Lemma unknown_error_reraised_witness :
  is_GoRpcError (OtherError "ValueError" []) = false /\
  (stream_start None (PullRaise (OtherError "ValueError" [])) (VStr "g1") sample_state).2
    = inl (OtherError "ValueError" []) /\
  log (stream_start None (PullRaise (OtherError "ValueError" [])) (VStr "g1")
         sample_state).1 = log sample_state ++ [OtherError "ValueError" []] /\
  stream_next (PullRaise (OtherError "ValueError" [])) sample_state =
    (mkSt (heap sample_state) (log sample_state ++ [OtherError "ValueError" []])
          (sent sample_state), inl (OtherError "ValueError" [])).
Proof.
  split; [reflexivity|]. apply unknown_error_reraised. reflexivity.
Defined.

(** C9: decoding a reply changes no object that existed before: the reply
    dictionary, its [PkColNames] and [PkValues] and every other object keep
    their contents (the store only grows by the new objects), and nothing
    is logged or sent. *)
Theorem EventData_preserves_store (raw : loc) (st : St) :
  heap st ⊆ heap (EventData raw st).1 /\
  log (EventData raw st).1 = log st /\ sent (EventData raw st).1 = sent st.
Proof.
  pose proof (EventData_frame raw st) as Hf.
  destruct (EventData raw st) as [st' r]. exact Hf.
Qed.

(** C10: the dictionary returned by a successful [stream_start] or
    [stream_next] has the key [PkRows] and neither [PkColNames] nor
    [PkValues]. *)
Theorem stream_result_keys (op : M (option loc)) (ce : option exc) (p : pull)
    (pos : val) (st : St) (ev : loc) :
  op = stream_start ce p pos \/ op = stream_next p ->
  (op st).2 = inr (Some ev) ->
  exists d', heap (op st).1 !! ev = Some (ODict d') /\
             is_Some (d' !! "PkRows") /\
             d' !! "PkColNames" = None /\ d' !! "PkValues" = None.
Proof.
  intros Hop Hok.
  destruct (stream_event op ce p pos st ev Hop Hok) as (reply & st0 & E).
  destruct (EventData_result_dict reply st0 (op st).1 ev E) as (d & lp & Hd).
  exists (result_dict d lp). split; [done|]. apply result_dict_keys.
Qed.

Lemma stream_result_keys_witness :
  (stream_next (PullReply 1%positive) sample_state).2 = inr (Some 7%positive) /\
  exists d', heap (stream_next (PullReply 1%positive) sample_state).1 !! 7%positive
               = Some (ODict d') /\
             is_Some (d' !! "PkRows") /\
             d' !! "PkColNames" = None /\ d' !! "PkValues" = None.
Proof.
  assert (E : (stream_next (PullReply 1%positive) sample_state).2 = inr (Some 7%positive))
    by (vm_compute; reflexivity).
  split; [exact E|].
  apply (stream_result_keys (stream_next (PullReply 1%positive)) None
           (PullReply 1%positive) (VStr "g1") sample_state 7%positive).
  - right. reflexivity.
  - exact E.
Defined.

(** C3 (counterexample): a reply with neither [PkColNames] nor
    [PkValues] is not decoded: [del self.__dict__['PkColNames']] raises
    [KeyError('PkColNames')]. *)
Lemma EventData_absent_pk_raises :
  (EventData 1%positive no_pk_state).2 = inl (KeyError "PkColNames").
Proof. vm_compute. reflexivity. Qed.

(** C3 (as amended): on a reply dictionary, a missing [PkColNames] raises
    [KeyError('PkColNames')], a missing [PkValues] (with [PkColNames]
    present) raises [KeyError('PkValues')], and when both keys are present
    and [PkColNames] is empty (false as a Python truth value) decoding
    succeeds with [PkRows] empty, whatever [PkValues] holds. *)
Theorem EventData_pk_keys (raw : loc) (st : St) (d : gmap string val) :
  heap st !! raw = Some (ODict d) ->
  (d !! "PkColNames" = None -> (EventData raw st).2 = inl (KeyError "PkColNames")) /\
  (forall cols, d !! "PkColNames" = Some cols -> d !! "PkValues" = None ->
     (EventData raw st).2 = inl (KeyError "PkValues")) /\
  (forall cols pv, d !! "PkColNames" = Some cols -> d !! "PkValues" = Some pv ->
     truthy (heap st) cols = false ->
     exists ev, (EventData raw st).2 = inr ev /\
                pk_rows_of (heap (EventData raw st).1) ev = Some []).
Proof.
  intros Hraw.
  destruct (EventData_dict raw st d Hraw)
    as (s & lp & st5 & stE & Hs & Hlp & Hne & H5 & L5 & S5 & HE & LE & SE & Heq).
  rewrite Heq. clear Heq.
  assert (Hsub5 : heap st ⊆ heap st5).
  { rewrite H5. apply insert_subseteq_r; [by apply not_elem_of_dom|].
    apply insert_subseteq. by apply not_elem_of_dom. }
  split_and!.
  - intros ->. reflexivity.
  - intros cols -> ->. reflexivity.
  - intros cols pv -> -> Hf.
    rewrite (truthy_mono (heap st) (heap st5)) by (done || by apply falsy_top_ok).
    rewrite Hf. exists s. split; [done|]. simpl.
    apply (pk_rows_of_result _ s lp d).
    + rewrite H5, lookup_insert_ne by done. apply lookup_insert_eq.
    + exists []. split; [|constructor]. rewrite H5. apply lookup_insert_eq.
Qed.

Lemma EventData_pk_keys_witness :
  heap empty_cols_state !! 1%positive = Some (ODict empty_cols_reply) /\
  exists ev, (EventData 1%positive empty_cols_state).2 = inr ev /\
             pk_rows_of (heap (EventData 1%positive empty_cols_state).1) ev = Some [].
Proof.
  assert (Hraw : heap empty_cols_state !! 1%positive = Some (ODict empty_cols_reply))
    by reflexivity.
  split; [exact Hraw|].
  destruct (EventData_pk_keys 1%positive empty_cols_state empty_cols_reply Hraw)
    as (_ & _ & H3).
  apply (H3 (VRef 2%positive) (VRef 3%positive)); vm_compute; reflexivity.
Defined.

(** C4: a reply with [PkColNames = [c1, c2]] and
    [PkValues = [[v1, v2], [], [v3, v4]]] decodes to
    [PkRows = [[(c1, v1), (c2, v2)], [(c1, v3), (c2, v4)]]]: the empty
    entry gives no row. *)
Theorem EventData_pk_rows_example (raw lc lv r1 r2 r3 : loc) (c1 c2 v1 v2 v3 v4 : val)
    (d : gmap string val) (st : St) :
  heap st !! raw = Some (ODict d) ->
  d !! "PkColNames" = Some (VRef lc) -> heap st !! lc = Some (OList [c1; c2]) ->
  d !! "PkValues" = Some (VRef lv) ->
  heap st !! lv = Some (OList [VRef r1; VRef r2; VRef r3]) ->
  heap st !! r1 = Some (OList [v1; v2]) -> heap st !! r2 = Some (OList []) ->
  heap st !! r3 = Some (OList [v3; v4]) ->
  exists ev, (EventData raw st).2 = inr ev /\
    pk_rows_of (heap (EventData raw st).1) ev =
      Some [[VTuple [c1; v1]; VTuple [c2; v2]]; [VTuple [c1; v3]; VTuple [c2; v4]]].
Proof.
  intros Hraw Hcn Hlc Hpv Hlv H1 H2 H3.
  assert (Hready : ready (heap st) d).
  { split.
    - intros cols E. rewrite Hcn in E. injection E as <-. simpl. rewrite Hlc. eauto.
    - intros pv E. rewrite Hpv in E. injection E as <-.
      split; [simpl; rewrite Hlv; eauto|].
      intros pvs Hit. simpl in Hit. rewrite Hlv in Hit. injection Hit as <-.
      repeat constructor; simpl; [rewrite H1 | rewrite H2 | rewrite H3]; eauto. }
  assert (Hspec : decode_spec (heap st) d =
            inr [[VTuple [c1; v1]; VTuple [c2; v2]]; [VTuple [c1; v3]; VTuple [c2; v4]]]).
  { unfold decode_spec. rewrite Hcn, Hpv. simpl. rewrite Hlc, Hlv. simpl.
    rewrite H1, H2, H3. simpl. rewrite Hlc. reflexivity. }
  pose proof (EventData_correct raw st d Hraw Hready) as Hc.
  destruct (EventData raw st) as [st' r]. rewrite Hspec in Hc.
  destruct Hc as (_ & _ & _ & Hm). destruct r as [e|ev]; [done|].
  destruct Hm as (_ & lp & Hev & Hinv). exists ev. split; [done|].
  by eapply pk_rows_of_result.
Qed.

Lemma EventData_pk_rows_example_witness :
  exists ev, (EventData 1%positive sample_state).2 = inr ev /\
    pk_rows_of (heap (EventData 1%positive sample_state).1) ev =
      Some [[VTuple [VStr "id"; VInt 1]; VTuple [VStr "name"; VStr "a"]];
            [VTuple [VStr "id"; VInt 2]; VTuple [VStr "name"; VStr "b"]]].
Proof.
  apply (EventData_pk_rows_example 1%positive 2%positive 3%positive 4%positive
           5%positive 6%positive (VStr "id") (VStr "name") (VInt 1) (VStr "a")
           (VInt 2) (VStr "b") sample_reply sample_state);
    vm_compute; reflexivity.
Defined.

(** C6: when decoding succeeds, [PkRows] has at most as many rows as
    [PkValues] has entries: each entry contributes at most one row, and an
    entry that is false as a Python truth value ([None] or empty)
    contributes none. *)
Theorem EventData_rows_bound (raw : loc) (st : St) (d : gmap string val) (pv : val)
    (pvs : list val) (ev : loc) :
  closed_heap (heap st) = true ->
  heap st !! raw = Some (ODict d) ->
  d !! "PkValues" = Some pv -> py_iter (heap st) pv = Some pvs ->
  (EventData raw st).2 = inr ev ->
  exists R, pk_rows_of (heap (EventData raw st).1) ev = Some R /\
    List.length R <= List.length pvs /\
    exists cs, Forall2 (contributes (heap st)) pvs cs /\ R = List.concat cs.
Proof.
  intros Hcl Hraw Hpv Hit Hok.
  pose proof (EventData_correct raw st d Hraw (closed_ready _ _ _ Hcl Hraw)) as Hc.
  destruct (EventData raw st) as [st' r]. simpl in Hok. subst r.
  destruct Hc as (_ & _ & _ & Hm).
  destruct (decode_spec (heap st) d) as [e|R] eqn:Hd; [done|].
  destruct Hm as (_ & lp & Hev & Hinv).
  exists R. split; [by eapply pk_rows_of_result|].
  destruct (decode_spec_contribs _ _ _ _ _ Hd Hpv Hit) as (cs & Hf & ->).
  split; [by eapply contribs_length|eauto].
Qed.

Lemma EventData_rows_bound_witness :
  exists R, pk_rows_of (heap (EventData 1%positive sample_state).1) 7%positive = Some R /\
    List.length R <= 3 /\
    exists cs, Forall2 (contributes sample_heap)
                 [VRef 4%positive; VRef 5%positive; VRef 6%positive] cs /\
               R = List.concat cs.
Proof.
  apply (EventData_rows_bound 1%positive sample_state sample_reply (VRef 3%positive)
           [VRef 4%positive; VRef 5%positive; VRef 6%positive] 7%positive);
    vm_compute; reflexivity.
Defined.

(** C7: decoding the same reply twice gives equal results: the same
    exception, or two event dictionaries with equal contents at every
    depth (what Python's [==] compares), in a store without dangling
    references. *)
Theorem EventData_twice (raw : loc) (st : St) :
  closed_heap (heap st) = true ->
  let '(st1, r1) := EventData raw st in
  let '(st2, r2) := EventData raw st1 in
  match r1, r2 with
  | inl e1, inl e2 => e1 = e2
  | inr ev1, inr ev2 => forall n, deep n (heap st2) (VRef ev1) = deep n (heap st2) (VRef ev2)
  | _, _ => False
  end.
Proof.
  intros Hcl.
  destruct (heap st !! raw) as [[d| |]|] eqn:Hraw.
  2-4: destruct (EventData_not_dict raw st) as [e E]; [intros d' Hd; congruence|];
       rewrite E, E; reflexivity.
  pose proof (closed_ready _ _ _ Hcl Hraw) as Hr.
  pose proof (EventData_correct raw st d Hraw Hr) as C1.
  destruct (EventData raw st) as [st1 r1].
  destruct C1 as (S1 & _ & _ & M1).
  assert (Hraw1 : heap st1 !! raw = Some (ODict d)) by (by eapply lookup_weaken).
  pose proof (EventData_correct raw st1 d Hraw1 (ready_mono _ _ _ S1 Hr)) as C2.
  rewrite (decode_spec_mono _ _ _ S1 Hr) in C2.
  destruct (EventData raw st1) as [st2 r2].
  destruct C2 as (S2 & _ & _ & M2).
  destruct r1 as [e1|ev1], r2 as [e2|ev2], (decode_spec (heap st) d) as [e|R];
    try done; [congruence|].
  destruct M1 as (_ & lp1 & E1 & I1), M2 as (_ & lp2 & E2 & I2).
  intros n. eapply deep_result; [by eapply lookup_weaken | by eapply rows_inv_mono | done | done].
Qed.

Lemma EventData_twice_witness :
  closed_heap (heap sample_state) = true /\
  let '(st1, r1) := EventData 1%positive sample_state in
  let '(st2, r2) := EventData 1%positive st1 in
  match r1, r2 with
  | inl e1, inl e2 => e1 = e2
  | inr ev1, inr ev2 => forall n, deep n (heap st2) (VRef ev1) = deep n (heap st2) (VRef ev2)
  | _, _ => False
  end.
Proof.
  assert (Hcl : closed_heap (heap sample_state) = true) by (vm_compute; reflexivity).
  split; [exact Hcl|]. exact (EventData_twice 1%positive sample_state Hcl).
Defined.

(** * Further properties of the module *)

(** ** Helpers: the exceptions of the decoder *)

Lemma ode_ret {A} (x : A) : only_decode_errors (retM x).
Proof. intros st. done. Qed.

Lemma ode_raise {A} (e : exc) : decode_error e = true -> only_decode_errors (@raise A e).
Proof. intros He st. exact He. Qed.

Lemma ode_bind {A B} (m : M A) (k : A -> M B) :
  only_decode_errors m -> (forall x, only_decode_errors (k x)) ->
  only_decode_errors (bindM m k).
Proof.
  intros Hm Hk st. specialize (Hm st). unfold bindM.
  destruct (m st) as [st' [e|x]]; [exact Hm|]. apply Hk.
Qed.

Lemma ode_deref (l : loc) : only_decode_errors (deref l).
Proof. intros st. unfold deref. by destruct (heap st !! l). Qed.

Lemma ode_alloc (o : obj) : only_decode_errors (alloc o).
Proof. intros st. done. Qed.

Lemma ode_getitem (l : loc) (k : string) : only_decode_errors (getitem l k).
Proof.
  apply ode_bind; [apply ode_deref|]. intros [d| |];
    [destruct (d !! k); [apply ode_ret | by apply ode_raise] | by apply ode_raise ..].
Qed.

Lemma ode_setitem (l : loc) (k : string) (v : val) : only_decode_errors (setitem l k v).
Proof.
  apply ode_bind; [apply ode_deref|]. intros [d| |]; [intros st; done | by apply ode_raise ..].
Qed.

Lemma ode_delitem (l : loc) (k : string) : only_decode_errors (delitem l k).
Proof.
  apply ode_bind; [apply ode_deref|]. intros [d| |];
    [destruct (d !! k); [intros st; done | by apply ode_raise] | by apply ode_raise ..].
Qed.

Lemma ode_list_append (l : loc) (v : val) : only_decode_errors (list_append l v).
Proof.
  apply ode_bind; [apply ode_deref|]. intros [d|vs|]; [by apply ode_raise | intros st; done | by apply ode_raise].
Qed.

Lemma ode_iter (v : val) : only_decode_errors (iter v).
Proof. intros st. unfold iter. by destruct (py_iter (heap st) v). Qed.

Lemma ode_is_true (v : val) : only_decode_errors (is_true v).
Proof. intros st. done. Qed.

Lemma ode_mfor {A} (xs : list A) (body : A -> M unit) :
  (forall x, only_decode_errors (body x)) -> only_decode_errors (mfor xs body).
Proof.
  intros Hb. induction xs as [|x xs IH]; simpl; [apply ode_ret|].
  apply ode_bind; [apply Hb | intros _; exact IH].
Qed.

Lemma ode_pk_step (raw rows : loc) (x : val) : only_decode_errors (pk_step raw rows x).
Proof.
  unfold pk_step. apply ode_bind; [apply ode_is_true|]. intros t.
  destruct (negb t); [apply ode_ret|].
  apply ode_bind; [apply ode_getitem|]. intros cols.
  apply ode_bind; [apply ode_iter|]. intros cs.
  apply ode_bind; [apply ode_iter|]. intros ps.
  apply ode_bind; [apply ode_alloc|]. intros pk_row.
  apply ode_list_append.
Qed.

Lemma ode_EventData (raw : loc) : only_decode_errors (EventData raw).
Proof.
  unfold EventData. apply ode_bind; [apply ode_deref|]. intros [d| |]; [|by apply ode_raise ..].
  apply ode_bind; [apply ode_alloc|]. intros self.
  apply ode_bind; [apply ode_mfor; intros kv; apply ode_setitem|]. intros _.
  apply ode_bind; [apply ode_alloc|]. intros rows.
  apply ode_bind; [apply ode_setitem|]. intros _.
  apply ode_bind; [apply ode_delitem|]. intros _.
  apply ode_bind; [apply ode_delitem|]. intros _.
  apply ode_bind; [apply ode_getitem|]. intros cols.
  apply ode_bind; [apply ode_is_true|]. intros t.
  destruct (negb t); [apply ode_ret|].
  apply ode_bind; [apply ode_getitem|]. intros pv.
  apply ode_bind; [apply ode_iter|]. intros pvs.
  apply ode_bind; [apply ode_mfor; intros x; apply ode_pk_step|]. intros _.
  apply ode_ret.
Qed.

Lemma decode_error_not_rpc (e : exc) :
  decode_error e = true -> is_AppError e = false /\ is_GoRpcError e = false.
Proof. by destruct e. Qed.

(** A successful decoding of the dictionary [d] returns a new dictionary
    [result_dict d lp], with a new list at [lp]. *)
Lemma EventData_ok_fresh (raw : loc) (st st' : St) (ev : loc) (d : gmap string val) :
  heap st !! raw = Some (ODict d) -> EventData raw st = (st', inr ev) ->
  exists lp, heap st' !! ev = Some (ODict (result_dict d lp)) /\
             (ev ∉ dom (heap st)) /\ (lp ∉ dom (heap st)).
Proof.
  intros Hraw E.
  destruct (EventData_dict raw st d Hraw)
    as (s & lp & st5 & stE & Hs & Hlp & Hne & H5 & L5 & S5 & HE & LE & SE & Heq).
  rewrite Heq in E. exists lp.
  assert (Hs5 : heap st5 !! s = Some (ODict (result_dict d lp))).
  { rewrite H5, lookup_insert_ne by done. apply lookup_insert_eq. }
  destruct (d !! "PkColNames") as [cols|]; [|done].
  destruct (d !! "PkValues") as [pv|]; [|done].
  destruct (negb (truthy (heap st5) cols)); [by simplify_eq|].
  destruct (py_iter (heap st5) pv) as [pvs|]; [|done].
  pose proof (pk_loop_frame raw lp pvs st5) as Hk.
  destruct (mfor pvs (pk_step raw lp) st5) as [st'' [e|[]]]; simplify_eq.
  destruct Hk as (Hk & _ & _). split_and!; [by apply Hk | done | done].
Qed.

(** ** Decoding *)

(** The decoded event is a new dictionary, so changing it does not change
    the reply: it holds every key of the reply other than [PkColNames],
    [PkValues] and [PkRows] with the reply's value, and its [PkRows] is a
    new list, also when the reply had a [PkRows] key of its own. *)
Theorem EventData_fields (raw : loc) (st : St) (d : gmap string val) (ev : loc) :
  heap st !! raw = Some (ODict d) -> (EventData raw st).2 = inr ev ->
  (ev ∉ dom (heap st)) /\
  exists d' lp, heap (EventData raw st).1 !! ev = Some (ODict d') /\
    d' !! "PkRows" = Some (VRef lp) /\ (lp ∉ dom (heap st)) /\
    forall k, k <> "PkRows" -> k <> "PkColNames" -> k <> "PkValues" -> d' !! k = d !! k.
Proof.
  intros Hraw Hok.
  destruct (EventData raw st) as [st' r] eqn:E. simpl in Hok |- *. subst r.
  destruct (EventData_ok_fresh raw st st' ev d Hraw E) as (lp & Hev & Hfe & Hfl).
  split; [done|]. exists (result_dict d lp), lp. split_and!; try done.
  - apply result_dict_PkRows.
  - intros k H1 H2 H3. unfold result_dict.
    rewrite !lookup_delete_ne, lookup_insert_ne by congruence. done.
Qed.

Lemma EventData_fields_witness :
  heap sample_state !! 1%positive = Some (ODict sample_reply) /\
  (EventData 1%positive sample_state).2 = inr 7%positive /\
  ((7%positive ∉ dom (heap sample_state))) /\
  exists d' lp, heap (EventData 1%positive sample_state).1 !! 7%positive = Some (ODict d') /\
    d' !! "PkRows" = Some (VRef lp) /\ (lp ∉ dom (heap sample_state)) /\
    forall k, k <> "PkRows" -> k <> "PkColNames" -> k <> "PkValues" ->
      d' !! k = sample_reply !! k.
Proof.
  assert (Hraw : heap sample_state !! 1%positive = Some (ODict sample_reply))
    by reflexivity.
  assert (Hok : (EventData 1%positive sample_state).2 = inr 7%positive)
    by (vm_compute; reflexivity).
  split; [exact Hraw|]. split; [exact Hok|].
  exact (EventData_fields 1%positive sample_state sample_reply 7%positive Hraw Hok).
Defined.



(** ** Decoding inside the connection's operations *)

(** An exception raised while decoding a reply ([KeyError], [TypeError] or
    [AttributeError]) is not reclassified by [stream_next] or
    [stream_start]: it is logged and re-raised as it is. *)
Theorem decode_errors_pass_through (raw : loc) (pos : val) (st : St) (e : exc) :
  ((stream_next (PullReply raw) st).2 = inl e ->
     decode_error e = true /\ (EventData raw st).2 = inl e /\
     log (stream_next (PullReply raw) st).1 = log st ++ [e]) /\
  ((stream_start None (PullReply raw) pos st).2 = inl e ->
     decode_error e = true /\
     log (stream_start None (PullReply raw) pos st).1 = log st ++ [e]).
Proof.
  assert (Hrun : forall (handler : exc -> M (option loc)) st0,
    (forall e0 st', decode_error e0 = true ->
       handler e0 st' = (mkSt (heap st') (log st' ++ [e0]) (sent st'), inl e0)) ->
    (catch (stream_read (PullReply raw)) handler st0).2 = inl e ->
    decode_error e = true /\ (EventData raw st0).2 = inl e /\
    log (catch (stream_read (PullReply raw)) handler st0).1 = log st0 ++ [e]).
  { intros handler st0 Hh. rewrite catch_read.
    pose proof (ode_EventData raw st0) as Hd.
    pose proof (EventData_frame raw st0) as Hf.
    destruct (EventData raw st0) as [st' [e'|ev]]; simpl in Hd |- *; [|done].
    destruct Hf as (_ & Hl & _). rewrite (Hh e' st' Hd). simpl.
    intros [= <-]. split_and!; [done|done|]. by rewrite Hl. }
  split.
  - apply Hrun. intros e0 st' H0. rewrite stream_next_except_eq.
    destruct (decode_error_not_rpc e0 H0) as [-> ->]. reflexivity.
  - rewrite stream_start_eq. cbv zeta. intros Hr.
    edestruct (Hrun stream_start_except) as (H1 & _ & H2); [|exact Hr|].
    + intros e0 st' H0. rewrite stream_start_except_eq.
      destruct (decode_error_not_rpc e0 H0) as [_ ->]. reflexivity.
    + split; [done|]. rewrite H2. reflexivity.
Qed.

Lemma decode_errors_pass_through_witness :
  (stream_next (PullReply 1%positive) bad_entry_state).2 = inl TypeError /\
  decode_error TypeError = true /\ (EventData 1%positive bad_entry_state).2 = inl TypeError /\
  log (stream_next (PullReply 1%positive) bad_entry_state).1 = log bad_entry_state ++ [TypeError].
Proof.
  assert (E : (stream_next (PullReply 1%positive) bad_entry_state).2 = inl TypeError)
    by (vm_compute; reflexivity).
  split; [exact E|].
  destruct (decode_errors_pass_through 1%positive (VStr "g1") bad_entry_state TypeError)
    as [H _].
  exact (H E).
Defined.

(** ** Helpers: the rows the loop builds *)

Lemma izip_length (xs ys : list val) :
  List.length (izip xs ys) = Nat.min (List.length xs) (List.length ys).
Proof.
  revert ys. induction xs as [|x xs IH]; intros [|y ys]; simpl; try done.
  by rewrite IH.
Qed.

Lemma pair_row_length (cs ps : list val) :
  List.length (pair_row cs ps) = Nat.min (List.length cs) (List.length ps).
Proof. unfold pair_row. by rewrite length_map, izip_length. Qed.

Lemma spec_loop_type_error (h : gmap loc obj) (cols : val) (pvs : list val) (x : val) :
  In x pvs -> truthy h x = true -> (py_iter h cols = None \/ py_iter h x = None) ->
  spec_loop h cols pvs = inl TypeError.
Proof.
  intros Hin Hx Hn. induction pvs as [|y ys IH]; [done|]. simpl.
  destruct Hin as [->|Hin].
  - rewrite Hx. by destruct Hn as [->| ->]; [|destruct (py_iter h cols)].
  - rewrite (IH Hin).
    destruct (truthy h y); [|done].
    by destruct (py_iter h cols), (py_iter h y).
Qed.

Lemma spec_loop_rows (h : gmap loc obj) (cols : val) (cs : list val) (pvs : list val)
    (R : list (list val)) :
  py_iter h cols = Some cs -> spec_loop h cols pvs = inr R ->
  Forall2 (fun x r => exists ps, py_iter h x = Some ps /\ r = pair_row cs ps /\
             List.length r = Nat.min (List.length cs) (List.length ps))
          (List.filter (truthy h) pvs) R.
Proof.
  intros Hc. revert R. induction pvs as [|x xs IH]; intros R; simpl.
  - intros [= <-]. constructor.
  - destruct (truthy h x) eqn:Hx; [|apply IH].
    rewrite Hc. destruct (py_iter h x) as [ps|] eqn:Hp; [|done].
    destruct (spec_loop h cols xs) as [e|R'] eqn:E; [done|]. intros [= <-].
    constructor; [|by apply IH]. exists ps. split_and!; try done.
    apply pair_row_length.
Qed.

(** ** The rows of a decoded event *)

(** With a non-empty, iterable [PkColNames] [cs], the decoded [PkRows]
    has one row per entry of [PkValues] that is true as a Python value, in
    order; the row pairs the column names with that entry's values,
    [(cs[i], ps[i])], and stops at the shorter of the two lists. *)
Theorem EventData_rows_exact (raw : loc) (st : St) (d : gmap string val) (cols pv : val)
    (cs pvs : list val) (ev : loc) :
  closed_heap (heap st) = true -> heap st !! raw = Some (ODict d) ->
  d !! "PkColNames" = Some cols -> truthy (heap st) cols = true ->
  py_iter (heap st) cols = Some cs ->
  d !! "PkValues" = Some pv -> py_iter (heap st) pv = Some pvs ->
  (EventData raw st).2 = inr ev ->
  exists R, pk_rows_of (heap (EventData raw st).1) ev = Some R /\
    Forall2 (fun x r => exists ps, py_iter (heap st) x = Some ps /\ r = pair_row cs ps /\
               List.length r = Nat.min (List.length cs) (List.length ps))
            (List.filter (truthy (heap st)) pvs) R.
Proof.
  intros Hcl Hraw Hc Ht Hcs Hv Hit Hok.
  pose proof (EventData_correct raw st d Hraw (closed_ready _ _ _ Hcl Hraw)) as C.
  destruct (EventData raw st) as [st' r]. simpl in Hok. subst r.
  destruct C as (_ & _ & _ & Hm).
  destruct (decode_spec (heap st) d) as [e|R] eqn:Hd; [done|].
  destruct Hm as (_ & lp & Hev & Hinv).
  exists R. split; [by eapply pk_rows_of_result|].
  unfold decode_spec in Hd. rewrite Hc, Hv, Ht, Hit in Hd.
  by eapply spec_loop_rows.
Qed.

Lemma EventData_rows_exact_witness :
  exists R, pk_rows_of (heap (EventData 1%positive sample_state).1) 7%positive = Some R /\
    Forall2 (fun x r => exists ps, py_iter sample_heap x = Some ps /\
               r = pair_row [VStr "id"; VStr "name"] ps /\
               List.length r = Nat.min 2 (List.length ps))
            (List.filter (truthy sample_heap)
               [VRef 4%positive; VRef 5%positive; VRef 6%positive]) R.
Proof.
  apply (EventData_rows_exact 1%positive sample_state sample_reply (VRef 2%positive)
           (VRef 3%positive) [VStr "id"; VStr "name"]
           [VRef 4%positive; VRef 5%positive; VRef 6%positive] 7%positive);
    vm_compute; reflexivity.
Defined.

(** Decoding raises [TypeError] when [PkColNames] is true as a Python
    value and either [PkValues] is not iterable, or [PkValues] has an
    entry that is true as a Python value while it or [PkColNames] is not
    iterable: one bad entry fails the whole reply. *)
Theorem EventData_type_error (raw : loc) (st : St) (d : gmap string val) (cols pv : val) :
  closed_heap (heap st) = true -> heap st !! raw = Some (ODict d) ->
  d !! "PkColNames" = Some cols -> truthy (heap st) cols = true ->
  d !! "PkValues" = Some pv ->
  (py_iter (heap st) pv = None \/
   exists pvs x, py_iter (heap st) pv = Some pvs /\ In x pvs /\ truthy (heap st) x = true /\
     (py_iter (heap st) cols = None \/ py_iter (heap st) x = None)) ->
  (EventData raw st).2 = inl TypeError.
Proof.
  intros Hcl Hraw Hc Ht Hv Hbad.
  assert (Hd : decode_spec (heap st) d = inl TypeError).
  { unfold decode_spec. rewrite Hc, Hv, Ht.
    destruct Hbad as [-> | (pvs & x & -> & Hin & Hx & Hn)]; [done|].
    by eapply spec_loop_type_error. }
  pose proof (EventData_correct raw st d Hraw (closed_ready _ _ _ Hcl Hraw)) as C.
  rewrite Hd in C. destruct (EventData raw st) as [st' [e|ev]]; destruct C as (_ & _ & _ & C);
    [by subst | done].
Qed.

Lemma EventData_type_error_witness :
  (EventData 1%positive bad_entry_state).2 = inl TypeError.
Proof.
  apply (EventData_type_error 1%positive bad_entry_state bad_entry_reply (VRef 2%positive)
           (VRef 3%positive)); try (vm_compute; reflexivity).
  right. exists [VRef 4%positive; VInt 5], (VInt 5).
  split_and!; [vm_compute; reflexivity | right; left; reflexivity
              | vm_compute; reflexivity | right; vm_compute; reflexivity].
Defined.

(** ** Helpers: the [except] clauses *)

Lemma stream_start_except_spec : handler_spec stream_start_except.
Proof.
  intros e st'. rewrite stream_start_except_eq.
  destruct (is_GoRpcError e) eqn:E; [left; eexists; split; [|reflexivity]; reflexivity | by right].
Qed.

Lemma stream_next_except_spec : handler_spec stream_next_except.
Proof.
  intros e st'. rewrite stream_next_except_eq.
  destruct (is_AppError e) eqn:Ea, (is_GoRpcError e) eqn:Eg;
    try (left; eexists; split; [|reflexivity]; reflexivity).
  by right.
Qed.

Lemma handler_outcome (handler : exc -> M (option loc)) (st0 st' : St) (e : exc) :
  handler_spec handler -> log st' = log st0 -> stream_outcome st0 (handler e st').
Proof.
  intros Hh Hl. unfold stream_outcome.
  destruct (Hh e st') as [(e' & He' & ->) | [He ->]]; simpl.
  - split; [done|by left].
  - split; [done|right]. by rewrite Hl.
Qed.

Lemma handler_frame (handler : exc -> M (option loc)) (st' : St) (e : exc) :
  handler_spec handler ->
  heap (handler e st').1 = heap st' /\ sent (handler e st').1 = sent st'.
Proof. intros Hh. by destruct (Hh e st') as [(? & _ & ->) | [_ ->]]. Qed.

Lemma catch_read_outcome (handler : exc -> M (option loc)) (p : pull) (st0 st : St) :
  handler_spec handler -> log st = log st0 ->
  stream_outcome st0 (catch (stream_read p) handler st).
Proof.
  intros Hh Hl. rewrite catch_read. destruct p as [e| |reply].
  - by apply handler_outcome.
  - done.
  - pose proof (EventData_frame reply st) as Hf.
    destruct (EventData reply st) as [st' [e|ev]]; destruct Hf as (_ & Hl' & _).
    + apply handler_outcome; [done | congruence].
    + unfold stream_outcome. simpl. congruence.
Qed.

Lemma catch_read_frame (handler : exc -> M (option loc)) (p : pull) (st : St) :
  handler_spec handler ->
  heap st ⊆ heap (catch (stream_read p) handler st).1 /\
  sent (catch (stream_read p) handler st).1 = sent st.
Proof.
  intros Hh. rewrite catch_read. destruct p as [e| |reply].
  - destruct (handler_frame handler st e Hh) as [-> ->]. done.
  - done.
  - pose proof (EventData_frame reply st) as Hf.
    destruct (EventData reply st) as [st' [e|ev]]; destruct Hf as (Hs & _ & Hsn).
    + destruct (handler_frame handler st' e Hh) as [-> ->]. done.
    + done.
Qed.

(** ** The connection's operations *)

(** When [stream_call] itself raises, [stream_start] pulls no reply (its
    outcome does not depend on what the stream would give): a
    [GoRpcError] or [AppError] becomes [OperationalError] with the same
    arguments, any other exception is logged and re-raised. *)
Theorem stream_call_failure (e : exc) (p p' : pull) (pos : val) (st : St) :
  stream_start (Some e) p pos st = stream_start (Some e) p' pos st /\
  (stream_start (Some e) p pos st).2 =
    inl (if is_GoRpcError e then OperationalError (exc_args e) else e) /\
  log (stream_start (Some e) p pos st).1 =
    log st ++ (if is_GoRpcError e then [] else [e]).
Proof.
  rewrite !stream_start_eq. cbv zeta. rewrite !stream_start_except_eq.
  destruct (is_GoRpcError e); simpl; split_and!; try done.
  by rewrite app_nil_r.
Qed.

(** Neither operation changes an object that existed before it ran;
    [stream_next] sends no request. *)
Theorem stream_ops_frame (ce : option exc) (p : pull) (pos : val) (st : St) :
  heap st ⊆ heap (stream_start ce p pos st).1 /\
  heap st ⊆ heap (stream_next p st).1 /\
  sent (stream_next p st).1 = sent st.
Proof.
  split; [|apply catch_read_frame, stream_next_except_spec].
  rewrite stream_start_eq. cbv zeta.
  set (q := fresh (dom (heap st))).
  set (st1 := mkSt (<[q := ODict {["GroupId" := pos]}]> (heap st)) (log st)
                   (sent st ++ [("UpdateStream.ServeUpdateStream", VRef q)])).
  assert (H1 : heap st ⊆ heap st1).
  { apply insert_subseteq. apply not_elem_of_dom, is_fresh. }
  destruct ce as [e|].
  - destruct (handler_frame stream_start_except st1 e stream_start_except_spec) as [-> _].
    exact H1.
  - etransitivity; [exact H1|].
    apply (catch_read_frame stream_start_except p st1 stream_start_except_spec).
Qed.

(** No [GoRpcError] or [AppError] escapes either operation, and each logs
    at most one record, the exception it raises. *)
Theorem stream_ops_outcome (ce : option exc) (p : pull) (pos : val) (st : St) :
  stream_outcome st (stream_start ce p pos st) /\ stream_outcome st (stream_next p st).
Proof.
  split.
  - rewrite stream_start_eq. cbv zeta. destruct ce as [e|].
    + by apply handler_outcome; [apply stream_start_except_spec|].
    + by apply catch_read_outcome; [apply stream_start_except_spec|].
  - by apply catch_read_outcome; [apply stream_next_except_spec|].
Qed.
